(** * A shallow embedding of the data-aggregation core of js/data-loader.js

    The [DataLoader] class is modelled as pure functions over its loaded
    state: [categories] (country -> category id -> title) and [videoData]
    (country -> parsed rows).  JavaScript objects are association lists in
    insertion order; strings are Stdlib strings of 8-bit code units; the
    numbers the code derives with [parseInt] are integers ([Z]); quotients
    are rationals ([Q]) or [NaN]. *)

From Stdlib Require Import ZArith QArith Qminmax List Bool Lia Permutation Sorting.Sorted.
From Stdlib Require Import Strings.String Strings.Ascii Numbers.DecimalString.
Import ListNotations.
Open Scope string_scope.
Open Scope bool_scope.
Open Scope Z_scope.

(* ------------------------------------------------------------------ *)
(** ** JavaScript string primitives *)

Definition chr (n : nat) : ascii := ascii_of_nat n.

(** [WhiteSpace] and [LineTerminator] code units below 256 (TAB, LF, VT,
    FF, CR, SPACE, NBSP), as stripped by [String.prototype.trim]. *)
Definition is_ws (c : ascii) : bool :=
  let n := nat_of_ascii c in
  (Nat.eqb n 9 || Nat.eqb n 10 || Nat.eqb n 11 || Nat.eqb n 12 ||
   Nat.eqb n 13 || Nat.eqb n 32 || Nat.eqb n 160)%bool.

Fixpoint trim_start (s : string) : string :=
  match s with
  | EmptyString => EmptyString
  | String c s' => if is_ws c then trim_start s' else s
  end.

Fixpoint string_rev_app (s acc : string) : string :=
  match s with
  | EmptyString => acc
  | String c s' => string_rev_app s' (String c acc)
  end.

Definition string_rev (s : string) : string := string_rev_app s EmptyString.

Definition trim_end (s : string) : string :=
  string_rev (trim_start (string_rev s)).

(** [s.trim()] *)
Definition trim (s : string) : string := trim_end (trim_start s).

(** [s.split(sep)] for a one-character separator: always at least one
    piece. *)
Fixpoint split_aux (sep : ascii) (s cur : string) : list string :=
  match s with
  | EmptyString => [cur]
  | String c s' =>
      if Ascii.eqb c sep then cur :: split_aux sep s' EmptyString
      else split_aux sep s' (cur ++ String c EmptyString)
  end.

Definition split (sep : ascii) (s : string) : list string :=
  split_aux sep s EmptyString.

(** [s.toLowerCase()] on code units: only A-Z change below 256 apart from
    the Latin-1 capitals, which the tags of the data set do not use. *)
Definition lower_char (c : ascii) : ascii :=
  let n := nat_of_ascii c in
  if (Nat.leb 65 n && Nat.leb n 90)%bool then ascii_of_nat (n + 32) else c.

Fixpoint to_lower (s : string) : string :=
  match s with
  | EmptyString => EmptyString
  | String c s' => String (lower_char c) (to_lower s')
  end.

(** [s.replace(/<double quote>/g, '')]: every double-quote code unit is
    removed. *)
Fixpoint remove_quotes (s : string) : string :=
  match s with
  | EmptyString => EmptyString
  | String c s' =>
      if Ascii.eqb c (chr 34) then remove_quotes s' else String c (remove_quotes s')
  end.

(** [s.endsWith(t)] *)
Definition ends_with (t s : string) : bool :=
  String.prefix (string_rev t) (string_rev s).

(** [s.includes(t)] *)
Fixpoint includes (t s : string) : bool :=
  (String.prefix t s ||
   match s with
   | EmptyString => false
   | String _ s' => includes t s'
   end)%bool.

(** [s.slice(1, -1)] on a string of length at least 2. *)
Definition slice_inner (s : string) : string :=
  substring 1 (String.length s - 2) s.

Definition Z_to_string (z : Z) : string := NilEmpty.string_of_int (Z.to_int z).

(** Last binding of a key wins, as with repeated assignments to one
    object property. *)
Definition assoc_last {A} (m : list (string * A)) (k : string) : option A :=
  match find (fun p => String.eqb (fst p) k) (rev m) with
  | Some (_, v) => Some v
  | None => None
  end.

(** [obj[k] = f(obj[k] ?? d)] on an object used as a map, its keys
    in insertion order. *)
Fixpoint obj_upd {K A} (eqb : K -> K -> bool) (k : K) (d : A) (f : A -> A)
    (m : list (K * A)) : list (K * A) :=
  match m with
  | [] => [(k, f d)]
  | (k', v) :: m' => if eqb k' k then (k', f v) :: m' else (k', v) :: obj_upd eqb k d f m'
  end.

(** The names of the properties of [Object.prototype]: reading such a
    key of an object literal that lacks it as an own property gives the
    inherited value, which is truthy. *)
Definition object_prototype_keys : list string :=
  ["constructor"; "__defineGetter__"; "__defineSetter__"; "hasOwnProperty";
   "__lookupGetter__"; "__lookupSetter__"; "isPrototypeOf";
   "propertyIsEnumerable"; "toString"; "valueOf"; "__proto__"; "toLocaleString"].

Definition is_proto_key (k : string) : bool := existsb (String.eqb k) object_prototype_keys.

(* ------------------------------------------------------------------ *)
(** ** [parseInt(s)] with no radix; [None] is [NaN]. *)

Definition digit_value (radix : Z) (c : ascii) : option Z :=
  let n := Z.of_nat (nat_of_ascii c) in
  let v :=
    if (48 <=? n) && (n <=? 57) then n - 48
    else if (97 <=? n) && (n <=? 122) then n - 87
    else if (65 <=? n) && (n <=? 90) then n - 55
    else 99 in
  if v <? radix then Some v else None.

Fixpoint digits_prefix (radix : Z) (s : string) : list Z :=
  match s with
  | EmptyString => []
  | String c s' =>
      match digit_value radix c with
      | Some v => v :: digits_prefix radix s'
      | None => []
      end
  end.

Definition digits_value (radix : Z) (ds : list Z) : Z :=
  fold_left (fun acc d => acc * radix + d) ds 0%Z.

(** Steps 4-5 of [parseInt]: an optional sign. *)
Definition parse_sign (s1 : string) : Z * string :=
  match s1 with
  | String c r =>
      if Ascii.eqb c "-"%char then ((-1)%Z, r)
      else if Ascii.eqb c "+"%char then (1%Z, r) else (1%Z, s1)
  | EmptyString => (1%Z, s1)
  end.

(** Steps 6-10: with no radix, a [0x] or [0X] prefix selects base 16. *)
Definition parse_radix (s2 : string) : Z * string :=
  match s2 with
  | String "0"%char (String x r) =>
      if (Ascii.eqb x "x"%char || Ascii.eqb x "X"%char)%bool then (16%Z, r)
      else (10%Z, s2)
  | _ => (10%Z, s2)
  end.

Definition parse_int (s : string) : option Z :=
  let '(sign, s2) := parse_sign (trim_start s) in
  let '(radix, s3) := parse_radix s2 in
  match digits_prefix radix s3 with
  | [] => None
  | ds => Some (sign * digits_value radix ds)%Z
  end.

(** [parseInt(x) || 0]: [NaN] and [-0] both become [0]. *)
Definition or0 (v : option Z) : Z :=
  match v with Some z => z | None => 0%Z end.

(* ------------------------------------------------------------------ *)
(** ** Dates

    A [Date] built by [new Date(y, m, d)] is a local midnight; it is
    represented by its local day number (days since 1970-01-01 in the
    local calendar), or is an Invalid Date. *)

Inductive JSDate := JDate (day : Z) | JInvalid.

Definition days_from_civil (y m d : Z) : Z :=
  let y' := if m <=? 2 then y - 1 else y in
  let era := y' / 400 in
  let yoe := y' - era * 400 in
  let mp := if 2 <? m then m - 3 else m + 9 in
  let doy := (153 * mp + 2) / 5 + d - 1 in
  let doe := yoe * 365 + yoe / 4 - yoe / 100 + doy in
  era * 146097 + doe - 719468.

(** Local calendar (year, month 1..12, day 1..31) of a day number. *)
Definition civil_from_days (z0 : Z) : Z * Z * Z :=
  let z := z0 + 719468 in
  let era := z / 146097 in
  let doe := z - era * 146097 in
  let yoe := (doe - doe / 1460 + doe / 36524 - doe / 146096) / 365 in
  let y := yoe + era * 400 in
  let doy := doe - (365 * yoe + yoe / 4 - yoe / 100) in
  let mp := (5 * doy + 2) / 153 in
  let d := doy - (153 * mp + 2) / 5 + 1 in
  let m := if mp <? 10 then mp + 3 else mp - 9 in
  (if m <=? 2 then y + 1 else y, m, d).

(** MakeDay(year, month, date) of ECMA-262, month counted from 0. *)
Definition make_day (year month date : Z) : Z :=
  let ym := year + month / 12 in
  let mn := month mod 12 in
  days_from_civil ym (mn + 1) 1 + date - 1.

(** [new Date(y, m, d)]: a [NaN] argument gives an Invalid Date, a year
    in 0..99 is read as 1900+year, and TimeClip rejects times beyond
    8.64e15 ms (here taken on the local day number). *)
Definition js_new_date (y m d : option Z) : JSDate :=
  match y, m, d with
  | Some y, Some m, Some d =>
      let yr := if (0 <=? y) && (y <=? 99) then 1900 + y else y in
      let day := make_day yr m d in
      if Z.abs day <=? 100000000 then JDate day else JInvalid
  | _, _, _ => JInvalid
  end.

Definition opt_add (a : Z) (v : option Z) : option Z := option_map (Z.add a) v.

(** [parseTrendingDate(dateStr)]; [None] is [null].  [split] and
    [new Date] never throw, so the [catch] branch is unreachable. *)
Definition parseTrendingDate (dateStr : string) : option JSDate :=
  match split "." dateStr with
  | [p0; p1; p2] =>
      let year := opt_add 2000 (parse_int p0) in
      let day := parse_int p1 in
      let month := parse_int p2 in
      Some (js_new_date year (option_map (fun m => m - 1) month) day)
  | _ => None
  end.

(* ------------------------------------------------------------------ *)
(** ** Rows and [parseCSV] *)

(** A parsed row: the string properties set from the header, and the
    properties [parseCSV] sets afterwards.  [trending_date_parsed] is
    [None] when the property is never set (empty [trending_date]),
    [Some None] when it is [null]. *)
Record Row := mkRow {
  fields : list (string * string);
  country : string;
  views : Z;
  likes : Z;
  dislikes : Z;
  comment_count : Z;
  category_id : Z;
  category_name : string;
  trending_date_parsed : option (option JSDate)
}.

Definition get_field (r : Row) (k : string) : option string := assoc_last (fields r) k.

(** [this.categories]: country -> (category id -> title), in the order
    [processCategoryData] assigns them. *)
Definition Categories := list (string * list (string * string)).

(** [parseCSVLine(line)] *)
Fixpoint parseCSVLine_aux (s cur : string) (inQuotes : bool) : list string :=
  match s with
  | EmptyString => [cur]
  | String c s' =>
      if Ascii.eqb c (chr 34) then parseCSVLine_aux s' cur (negb inQuotes)
      else if Ascii.eqb c ","%char && negb inQuotes
      then cur :: parseCSVLine_aux s' EmptyString inQuotes
      else parseCSVLine_aux s' (cur ++ String c EmptyString) inQuotes
  end.

Definition parseCSVLine (line : string) : list string :=
  parseCSVLine_aux line EmptyString false.

(** [parseInt(row[k]) || 0]; an unset property reads as [undefined],
    whose [parseInt] is [NaN]. *)
Definition num_field (fs : list (string * string)) (k : string) : Z :=
  match assoc_last fs k with
  | Some s => or0 (parse_int s)
  | None => 0
  end.

(** [this.categories[country] ? this.categories[country][id] || 'Unknown'
    : 'Unknown'] *)
Definition category_name_of (cats : Categories) (ctry : string) (cid : Z) : string :=
  match assoc_last cats ctry with
  | Some m =>
      match assoc_last m (Z_to_string cid) with
      | Some t => if String.eqb t "" then "Unknown" else t
      | None => "Unknown"
      end
  | None => "Unknown"
  end.

(** The body of the loop of [parseCSV] for a line whose [values] are at
    least as many as the [headers]. *)
Definition make_row (cats : Categories) (ctry : string)
    (headers values : list string) : Row :=
  let fs := combine (map trim headers) (map trim values) in
  let cid := num_field fs "category_id" in
  {| fields := fs;
     country := ctry;
     views := num_field fs "views";
     likes := num_field fs "likes";
     dislikes := num_field fs "dislikes";
     comment_count := num_field fs "comment_count";
     category_id := cid;
     category_name := category_name_of cats ctry cid;
     trending_date_parsed :=
       match assoc_last fs "trending_date" with
       | Some s => if String.eqb s "" then None else Some (parseTrendingDate s)
       | None => None
       end |}.

Definition newline : ascii := chr 10.

(** The body of the loop for one line. *)
Definition csv_line (cats : Categories) (ctry : string) (headers : list string)
    (line : string) : list Row :=
  let values := parseCSVLine line in
  if Nat.leb (List.length headers) (List.length values)
  then [make_row cats ctry headers values] else [].

(** [for (let i = start; ...; i++)], [k] iterations. *)
Fixpoint csv_loop (cats : Categories) (ctry : string) (headers lines : list string)
    (i k : nat) : list Row :=
  match k with
  | O => []
  | S k' => app (csv_line cats ctry headers (nth i lines EmptyString))
                (csv_loop cats ctry headers lines (S i) k')
  end.

(** [parseCSV(text, country)] *)
Definition parseCSV (cats : Categories) (text ctry : string) : list Row :=
  let lines := split newline (trim text) in
  let headers := split ","%char (nth 0 lines EmptyString) in
  let maxRows := Nat.min (List.length lines) 1001 in
  csv_loop cats ctry headers lines 1 (maxRows - 1).

(* ------------------------------------------------------------------ *)
(** ** Numbers produced by division *)

Inductive JSNum := NFin (q : Q) | NNaN | NPosInf | NNegInf.

(** [a / b] on integers. *)
Definition js_div (a b : Z) : JSNum :=
  if b =? 0 then
    (if a =? 0 then NNaN else if 0 <? a then NPosInf else NNegInf)
  else NFin (inject_Z a / inject_Z b).

(** [this.videoData]: country -> rows, in insertion order. *)
Definition VideoData := list (string * list Row).

(** [Object.values(this.videoData).flat()] *)
Definition all_videos (vd : VideoData) : list Row := List.concat (map snd vd).

(** [this.videoData[country] || []] *)
Definition country_videos (vd : VideoData) (c : string) : list Row :=
  match assoc_last vd c with Some rows => rows | None => [] end.

(* ------------------------------------------------------------------ *)
(** ** [getViewsByCountry] *)

Record CountryViews := {
  totalViews : Z;
  avgViews : JSNum;
  videoCount : Z
}.

Definition views_of_country (rows : list Row) : CountryViews :=
  let total := fold_left (fun sum video => sum + views video) rows 0 in
  {| totalViews := total;
     avgViews := js_div total (Z.of_nat (List.length rows));
     videoCount := Z.of_nat (List.length rows) |}.

Definition getViewsByCountry (vd : VideoData) : list (string * CountryViews) :=
  map (fun '(c, rows) => (c, views_of_country rows)) vd.

(* ------------------------------------------------------------------ *)
(** ** [getViewsVsLikes] *)

(** The bounds of [filters]; [None] when the property is not a finite
    number ([Number.isFinite] fails), which the code replaces by [0] for a
    minimum and [Infinity] for a maximum. *)
Record Filters := {
  minViews : option Q;
  maxViews : option Q;
  minLikes : option Q;
  maxLikes : option Q
}.

Definition at_least (lo : option Q) (x : Z) : bool :=
  Qle_bool (match lo with Some q => q | None => 0%Q end) (inject_Z x).

Definition at_most (hi : option Q) (x : Z) : bool :=
  match hi with Some q => Qle_bool (inject_Z x) q | None => true end.

Definition vvl_videos (vd : VideoData) (c : string) : list Row :=
  if String.eqb c "all" then all_videos vd else country_videos vd c.

(** The three [filter] calls. *)
Definition vvl_filtered (vd : VideoData) (c : string) (f : Filters) : list Row :=
  filter (fun video => at_least (minLikes f) (likes video) && at_most (maxLikes f) (likes video))
    (filter (fun video => at_least (minViews f) (views video) && at_most (maxViews f) (views video))
       (filter (fun video => (0 <? views video) && (0 <? likes video)) (vvl_videos vd c))).

(** [arr.slice(0, end)] for an integer [end]. *)
Definition js_slice_to {A} (e : Z) (l : list A) : list A :=
  let len := Z.of_nat (List.length l) in
  let stop := if e <? 0 then Z.max 0 (len + e) else Z.min e len in
  firstn (Z.to_nat stop) l.

Record ScatterPoint := {
  sp_views : Z;
  sp_likes : Z;
  sp_title : option string;
  sp_country : string;
  sp_category : string
}.

Definition to_point (video : Row) : ScatterPoint :=
  {| sp_views := views video; sp_likes := likes video;
     sp_title := get_field video "title"; sp_country := country video;
     sp_category := category_name video |}.

(** [.sort(() => 0.5 - Math.random())] returns some reordering of its
    input: [getViewsVsLikes] may return [out] when some permutation
    [order] of the filtered rows gives it. *)
Definition getViewsVsLikes (vd : VideoData) (sampleSize : Z) (c : string) (f : Filters)
    (out : list ScatterPoint) : Prop :=
  exists order, Permutation (vvl_filtered vd c f) order /\
    out = map to_point (js_slice_to sampleSize order).

(* ------------------------------------------------------------------ *)
(** ** [Array.prototype.sort] and [Set]

    With a consistent comparator, [sort] is the stable sort of ES2019:
    [before x y] says the comparator puts [x] strictly before [y]. *)

Fixpoint insert_by {A} (before : A -> A -> bool) (x : A) (l : list A) : list A :=
  match l with
  | [] => [x]
  | y :: l' => if before x y then x :: l else y :: insert_by before x l'
  end.

Definition sort_by {A} (before : A -> A -> bool) (l : list A) : list A :=
  fold_left (fun acc x => insert_by before x acc) l [].

(** The default comparator of [sort] on strings: code-unit order. *)
Definition string_before (a b : string) : bool :=
  match String.compare a b with Lt => true | _ => false end.

(** [Array.from(set)] of a [Set] filled by [add] in list order. *)
Definition set_add (acc : list string) (x : string) : list string :=
  if existsb (String.eqb x) acc then acc else app acc [x].

Definition set_of (l : list string) : list string := fold_left set_add l [].

(* ------------------------------------------------------------------ *)
(** ** Counters [obj[k] = (obj[k] || 0) + 1]

    The value of a counter: a number; [CInherited k], the member [k] of
    [Object.prototype] (a function, or [Object.prototype] itself for
    [__proto__]); [CConcat k n], the string of that member followed by
    [n + 1] characters ["1"]. *)

Inductive CountVal := CNum (n : Z) | CInherited (k : string) | CConcat (k : string) (n : nat).

(** [obj[k] || 0] *)
Definition count_or0 (m : list (string * CountVal)) (k : string) : CountVal :=
  match assoc_last m k with
  | Some v => v
  | None => if is_proto_key k then CInherited k else CNum 0
  end.

(** [x + 1] on a counter value. *)
Definition count_plus1 (v : CountVal) : CountVal :=
  match v with
  | CNum n => CNum (n + 1)
  | CInherited k => CConcat k 0
  | CConcat k n => CConcat k (S n)
  end.


(* ------------------------------------------------------------------ *)
(** ** [getHeatmapData] *)



(** [if (video && video.category_name)] *)
Definition has_category (video : Row) : bool := negb (String.eqb (category_name video) "").

(** [counts[k] = (counts[k] || 0) + 1] on an object literal [counts].
    A key that is not an own property and names a property of
    [Object.prototype] reads the inherited member, which is truthy; the
    member plus [1] is the string of the member followed by ["1"], and
    assigning it to [__proto__] is ignored. *)
Definition count_bump (k : string) (m : list (string * CountVal)) : list (string * CountVal) :=
  if String.eqb k "__proto__" then m
  else obj_upd String.eqb k (if is_proto_key k then CInherited k else CNum 0) count_plus1 m.



Definition heat_categories (vd : VideoData) : list string :=
  sort_by string_before
    (set_of (map category_name (filter has_category (all_videos vd)))).


(* ------------------------------------------------------------------ *)
(** ** [getPublishingTimingData]

    [new Date(publish_time)] follows the host's date-string parser and
    time zone: it is the argument [publish], giving [None] when
    [getTime()] is [NaN] and otherwise [(getDay(), getHours())]. *)

Record Slot := {
  slot_count : Z;
  slot_totalViews : Z;
  slot_totalLikes : Z;
  slot_totalComments : Z
}.

Definition empty_slot : Slot := {| slot_count := 0; slot_totalViews := 0;
  slot_totalLikes := 0; slot_totalComments := 0 |}.

Definition Grid := Z -> Z -> Slot.

Definition add_to_slot (s : Slot) (video : Row) : Slot :=
  {| slot_count := slot_count s + 1;
     slot_totalViews := slot_totalViews s + views video;
     slot_totalLikes := slot_totalLikes s + likes video;
     slot_totalComments := slot_totalComments s + comment_count video |}.

(** The slot a video goes to: [video.publish_time] is truthy, the date is
    valid, and [day] and [hour] pass the double check. *)
Definition slot_of (publish : string -> option (Z * Z)) (video : Row) : option (Z * Z) :=
  match get_field video "publish_time" with
  | Some pt =>
      if String.eqb pt "" then None else
      match publish pt with
      | Some (day, hour) =>
          if (0 <=? day) && (day <=? 6) && (0 <=? hour) && (hour <=? 23)
          then Some (day, hour) else None
      | None => None
      end
  | None => None
  end.

Definition timing_step (publish : string -> option (Z * Z)) (g : Grid) (video : Row) : Grid :=
  match slot_of publish video with
  | Some (day, hour) =>
      fun d h => if (d =? day) && (h =? hour) then add_to_slot (g d h) video else g d h
  | None => g
  end.

Definition days7 : list Z := map Z.of_nat (seq 0 7).
Definition hours24 : list Z := map Z.of_nat (seq 0 24).

Definition cells : list (Z * Z) := list_prod days7 hours24.

Record TimingEntry := {
  te_day : Z;
  te_hour : Z;
  te_count : Z;
  te_avgViews : Q;
  te_totalViews : Z;
  te_successRate : Q
}.

Definition timing_videos (vd : VideoData) (selectedCountry : string) : list Row :=
  if String.eqb selectedCountry "global" then all_videos vd
  else country_videos vd selectedCountry.

Definition timing_grid (publish : string -> option (Z * Z)) (videos : list Row) : Grid :=
  fold_left (timing_step publish) videos (fun _ _ => empty_slot).

(** The loops that add up [totalViews] and [totalVideos] over the slots
    with [count > 0]. *)
Definition grid_totals (g : Grid) : Z * Z :=
  fold_left (fun '(tv, tc) '(d, h) =>
    let s := g d h in
    if 0 <? slot_count s then (tv + slot_totalViews s, tc + slot_count s) else (tv, tc))
    cells (0, 0).

Definition timing_entry (g : Grid) (overallAvgViews : Q) (cell : Z * Z) : TimingEntry :=
  let '(d, h) := cell in
  let s := g d h in
  let avg :=
    if 0 <? slot_count s
    then (inject_Z (slot_totalViews s) / inject_Z (slot_count s))%Q else 0%Q in
  let successRate :=
    if (0 <? slot_count s) && negb (Qle_bool overallAvgViews 0)
    then Qmin 100 (avg / overallAvgViews * 100) else 0%Q in
  {| te_day := d; te_hour := h; te_count := slot_count s; te_avgViews := avg;
     te_totalViews := slot_totalViews s; te_successRate := successRate |}.

Definition getPublishingTimingData (publish : string -> option (Z * Z))
    (vd : VideoData) (selectedCountry : string) : list TimingEntry :=
  let g := timing_grid publish (timing_videos vd selectedCountry) in
  let '(tv, tc) := grid_totals g in
  let overallAvgViews := if 0 <? tc then (inject_Z tv / inject_Z tc)%Q else 0%Q in
  map (timing_entry g overallAvgViews) cells.

(* ------------------------------------------------------------------ *)
(** ** Objects used as maps

    Own string keys are enumerated with the array indices first, in
    increasing numeric order, then the other keys in insertion order. *)

Definition is_array_index (s : string) : bool :=
  match digits_prefix 10 s with
  | [] => false
  | ds =>
      Nat.eqb (List.length ds) (String.length s) &&
      String.eqb (Z_to_string (digits_value 10 ds)) s &&
      (digits_value 10 ds <? 4294967295)
  end.

Definition object_entries {A} (m : list (string * A)) : list (string * A) :=
  app (sort_by (fun a b => digits_value 10 (digits_prefix 10 (fst a)) <?
                           digits_value 10 (digits_prefix 10 (fst b)))
         (filter (fun p => is_array_index (fst p)) m))
      (filter (fun p => negb (is_array_index (fst p))) m).

(* ------------------------------------------------------------------ *)
(** ** Tag cleaning *)

Definition nonePatterns : list string :=
  ["none"; "[none]"; "n/a"; "na"; "null"; "undefined";
   "no tag"; "no tags"; "notag"; "notags";
   "empty"; "blank"; "-"; "_"; ".";
   "[n/a]"; "[na]"; "[null]"; "[empty]"; "[blank]"].

Definition is_none_pattern (tag : string) : bool := existsb (String.eqb tag) nonePatterns.

(** [tag.replace(/<double quote>/g, '').trim().toLowerCase()] *)
Definition normalize_tag (tag : string) : string := to_lower (trim (remove_quotes tag)).

(** The filter shared by the three tag functions up to the bracket test;
    [maxLen] is 30 or 25. *)
Definition keep_tag_base (maxLen : nat) (tag : string) : bool :=
  if String.eqb tag "" || Nat.leb (String.length tag) 2 || Nat.leb maxLen (String.length tag)
  then false
  else if is_none_pattern tag then false
  else if String.prefix "[" tag && ends_with "]" tag && is_none_pattern (slice_inner tag)
  then false
  else true.

(** The extra test of [getTagEvolutionData] and [getTagRacingData]:
    ["none"] as a whole word. *)
Definition none_word (tag : string) : bool :=
  includes "none" tag &&
  (String.eqb tag "none" || String.prefix "none " tag ||
   ends_with " none" tag || includes " none " tag).

Definition keep_tag_timeline (tag : string) : bool :=
  keep_tag_base 30 tag && negb (none_word tag).

(** [video.tags.split('|').map(...).filter(...).slice(0, 8)] of
    [getTagEvolutionData] and [getTagRacingData]. *)
Definition clean_tags_timeline (tags : string) : list string :=
  firstn 8 (filter keep_tag_timeline (map normalize_tag (split "|"%char tags))).


(** [video.tags] is truthy. *)
Definition row_tags (video : Row) : option string :=
  match get_field video "tags" with
  | Some t => if String.eqb t "" then None else Some t
  | None => None
  end.

(* ------------------------------------------------------------------ *)
(** ** [getTagFlowData]

    The key [`${tag}→${category}`] of [tagCategoryPairs] is modelled by
    the pair [(tag, category)]; an arrow cannot occur in the 8-bit
    strings of the model. *)





















(** Categories [c1] then [c2] in code-unit order. *)
Definition string_le (c1 c2 : string) : Prop := string_before c2 c1 = false.

(* ------------------------------------------------------------------ *)
(** ** [getTagRacingData]

    [getTime()] of a local midnight depends on the host time zone: [tz]
    gives the offset from UTC, in milliseconds, in force at the local
    midnight of a local day number. *)

Definition ms_per_day : Z := 86400000.

Definition getTime (tz : Z -> Z) (d : JSDate) : option Z :=
  match d with
  | JDate day => Some (day * ms_per_day - tz day)
  | JInvalid => None
  end.

Definition getFullYear (d : JSDate) : option Z :=
  match d with
  | JDate day => let '(y, _, _) := civil_from_days day in Some y
  | JInvalid => None
  end.

(** [`Week ${Math.floor((t - new Date(y, 0, 1).getTime()) / (7*24*60*60*1000)) + 1}`];
    a [NaN] week prints as [NaN]. *)
Definition week_label (tz : Z -> Z) (trendingDate : JSDate) : string :=
  match getTime tz trendingDate, getFullYear trendingDate with
  | Some t, Some y =>
      match getTime tz (js_new_date (Some y) (Some 0) (Some 1)) with
      | Some t0 => "Week " ++ Z_to_string ((t - t0) / (7 * ms_per_day) + 1)
      | None => "Week NaN"
      end
  | _, _ => "Week NaN"
  end.

(** [video && video.tags && video.trending_date_parsed]: a [null] date is
    falsy, an Invalid Date is an object and so truthy. *)
Definition racing_input (video : Row) : option (string * JSDate) :=
  match row_tags video, trending_date_parsed video with
  | Some tags, Some (Some d) => Some (tags, d)
  | _, _ => None
  end.

(** [tagPeriodData]: tag -> period -> count (the views and likes the code
    also sums are left out). *)
Definition PeriodCounts := list (string * list (string * Z)).

Definition racing_step (tz : Z -> Z) (acc : list string * PeriodCounts) (video : Row)
    : list string * PeriodCounts :=
  let '(periods, tpd) := acc in
  match racing_input video with
  | Some (tags, d) =>
      let periodKey := week_label tz d in
      (set_add periods periodKey,
       fold_left (fun m tag =>
         obj_upd String.eqb tag [] (obj_upd String.eqb periodKey 0 (Z.add 1)) m)
         (clean_tags_timeline tags) tpd)
  | None => acc
  end.

(** [(tagLimit, minOccurrences)] *)
Definition racing_preset (filterType : string) : nat * Z :=
  if String.eqb filterType "top-tags" then (10%nat, 10)
  else if String.eqb filterType "trending" then (8%nat, 15)
  else (15%nat, 5).

Definition total_count (m : list (string * Z)) : Z :=
  fold_left (fun sum p => sum + snd p) (object_entries m) 0.

Record Racing := {
  rc_racingData : list (string * list (string * Z));
  rc_tags : list string;
  rc_periods : list string
}.

Definition getTagRacingData (tz : Z -> Z) (vd : VideoData) (filterType selectedCountry : string)
    : Racing :=
  let '(periods, tpd) :=
    fold_left (racing_step tz) (timing_videos vd selectedCountry) ([], []) in
  let sortedPeriods := sort_by string_before periods in
  let '(tagLimit, minOccurrences) := racing_preset filterType in
  let significantTags :=
    map fst (firstn tagLimit
      (sort_by (fun a b => total_count (snd b) <? total_count (snd a))
        (filter (fun p => minOccurrences <=? total_count (snd p)) (object_entries tpd)))) in
  let count_in tag period :=
    match assoc_last tpd tag with
    | Some m => match assoc_last m period with Some n => n | None => 0 end
    | None => 0
    end in
  {| rc_racingData :=
       map (fun period =>
         (period, sort_by (fun a b => snd b <? snd a)
                    (map (fun tag => (tag, count_in tag period)) significantTags)))
         sortedPeriods;
     rc_tags := significantTags;
     rc_periods := sortedPeriods |}.

(** The offset of America/New_York under the United States rules in force
    since 2007: daylight time from the second Sunday of March to the first
    Sunday of November, switching at 02:00 local time. *)
Definition weekday (day : Z) : Z := (day + 4) mod 7.

Definition first_sunday_from (day : Z) : Z := day + (7 - weekday day) mod 7.

Definition new_york_offset (day : Z) : Z :=
  let '(y, _, _) := civil_from_days day in
  let dst_start := first_sunday_from (days_from_civil y 3 8) in
  let dst_end := first_sunday_from (days_from_civil y 11 1) in
  if (dst_start <? day) && (day <=? dst_end) then -14400000 else -18000000.

(** A line feed, and a text made of lines. *)
Definition nl : string := String newline EmptyString.

Definition lines_text (ls : list string) : string := String.concat nl ls.

(** [getDay()] and [getHours()] of [new Date(s)] on a host whose time zone
    is UTC, for the dataset's timestamps [YYYY-MM-DDTHH:MM:SS.sssZ]. *)
Definition utc_iso_publish (s : string) : option (Z * Z) :=
  match split "T"%char s with
  | [date; time] =>
      match split "-"%char date, split ":"%char time with
      | [ys; ms; ds], hs :: _ =>
          match parse_int ys, parse_int ms, parse_int ds, parse_int hs with
          | Some y, Some m, Some d, Some hh => Some (weekday (days_from_civil y m d), hh)
          | _, _, _, _ => None
          end
      | _, _ => None
      end
  | _ => None
  end.

(** The videos that [getPublishingTimingData] adds to the slot [cell]. *)
Definition slot_is (publish : string -> option (Z * Z)) (cell : Z * Z) (video : Row) : bool :=
  match slot_of publish video with
  | Some (d, h) => (d =? fst cell) && (h =? snd cell)
  | None => false
  end.

(** The videos that go to some slot. *)
Definition has_slot (publish : string -> option (Z * Z)) (video : Row) : bool :=
  match slot_of publish video with Some _ => true | None => false end.

Definition timing_data : VideoData :=
  [("US", parseCSV [] (lines_text ["views,publish_time";
                                   "-5,2017-11-13T17:13:01.000Z";
                                   "20,2017-11-14T07:30:00.000Z"]) "US")].

Definition timing_data_ok : VideoData :=
  [("US", parseCSV [] (lines_text ["views,publish_time";
                                   "5,2017-11-13T17:13:01.000Z";
                                   "20,2017-11-14T07:30:00.000Z";
                                   "8,"]) "US")].



Definition racing_data : VideoData :=
  [("US", parseCSV [] (lines_text ["views,tags,trending_date";
                                   "100,music|live,18.12.03";
                                   "50,music,18.01.01";
                                   "70,music,18.05.02"]) "US")].

(* ------------------------------------------------------------------ *)
(** ** Helpers of the proofs and inputs of the examples *)

(** The numeric fields of a row, as in the source. *)
Definition numeric_fields (r : Row) : list (string * Z) :=
  [("views", views r); ("likes", likes r); ("dislikes", dislikes r);
   ("comment_count", comment_count r)].

(** [x] lies within the bounds [lo] and [hi] that are present. *)
Definition within (lo hi : option Q) (x : Z) : Prop :=
  (forall q, lo = Some q -> (q <= inject_Z x)%Q) /\
  (forall q, hi = Some q -> (inject_Z x <= q)%Q).

Definition no_filters : Filters :=
  {| minViews := None; maxViews := None; minLikes := None; maxLikes := None |}.

Definition scatter_data : VideoData :=
  [("US", parseCSV [] (lines_text ["views,likes,title"; "10,1,a"; "20,2,b"; "0,5,c"]) "US")].

Definition assoc_first {A} (m : list (string * A)) (k : string) : option A :=
  option_map snd (find (fun p => String.eqb (fst p) k) m).

(** The counters of the rows selected by [sel]. *)
Definition count_fold (sel : Row -> bool) (rows : list Row) (m : list (string * CountVal))
    : list (string * CountVal) :=
  fold_left (fun m video => if sel video then count_bump (category_name video) m else m) rows m.


Definition num_of (v : CountVal) : Z := match v with CNum n => n | _ => 0 end.


(** Sums of integers and of rationals. *)
Definition zsum (l : list Z) : Z := fold_right Z.add 0 l.
Definition qsum (l : list Q) : Q := fold_right Qplus 0%Q l.

Definition heat_cats : Categories :=
  [("US", [("10", "Music"); ("20", "Gaming")]); ("GB", [("10", "Music")])].

Definition heat_us : list Row :=
  parseCSV heat_cats (lines_text ["views,category_id"; "5,10"; "7,20"; "9,10"]) "US".

Definition heat_data : VideoData :=
  [("US", heat_us);
   ("GB", parseCSV heat_cats (lines_text ["views,category_id"; "3,10"]) "GB")].





(* ------------------------------------------------------------------ *)
(** ** [getCategoryDistribution] and [getCategoryDistributionByCountry]

    [categoryCount[category] = (categoryCount[category] || 0) + 1] with
    no check on the category; the returned object is the list of its own
    properties. *)

Definition category_dist (rows : list Row) : list (string * CountVal) :=
  fold_left (fun m video => count_bump (category_name video) m) rows [].

Definition getCategoryDistribution (vd : VideoData) : list (string * CountVal) :=
  category_dist (all_videos vd).

(** [if (this.videoData[country])]: a loaded country, even with no rows,
    is an array and so truthy.  A country that is not loaded but names a
    property of [Object.prototype] reads a truthy inherited member with
    no [forEach]: the call throws a [TypeError], which is [None]. *)
Definition getCategoryDistributionByCountry (vd : VideoData) (c : string)
    : option (list (string * CountVal)) :=
  if String.eqb c "all" then Some (getCategoryDistribution vd)
  else match assoc_last vd c with
       | Some rows => Some (category_dist rows)
       | None => if is_proto_key c then None else Some []
       end.

(* ------------------------------------------------------------------ *)
(** ** Engagement *)

Record Engagement := {
  Likes : Z;
  Dislikes : Z;
  Comments : Z
}.

(** [arr.reduce((sum, v) => sum + f(v), 0)] *)
Definition sum_by (f : Row -> Z) (rows : list Row) : Z :=
  fold_left (fun sum v => sum + f v) rows 0.

Definition engagement_of (rows : list Row) : Engagement :=
  {| Likes := sum_by likes rows; Dislikes := sum_by dislikes rows;
     Comments := sum_by comment_count rows |}.

Definition getEngagementMetrics (vd : VideoData) : Engagement :=
  engagement_of (all_videos vd).

Definition getFilteredEngagementMetrics (vd : VideoData) (c category : string) : Engagement :=
  let filteredVideos := all_videos vd in
  let filteredVideos :=
    if String.eqb c "all" then filteredVideos
    else filter (fun video => String.eqb (country video) c) filteredVideos in
  let filteredVideos :=
    if String.eqb category "all" then filteredVideos
    else filter (fun video => String.eqb (category_name video) category) filteredVideos in
  engagement_of filteredVideos.

(** [v.category_name || 'Unknown'] *)
Definition engagement_key (v : Row) : string :=
  if String.eqb (category_name v) "" then "Unknown" else category_name v.

Definition zero_engagement : Engagement := {| Likes := 0; Dislikes := 0; Comments := 0 |}.

(** [result[cat].Likes += v.likes || 0] and so on; [v.likes || 0] is
    [v.likes] on the integers of a row. *)
Definition add_engagement (v : Row) (e : Engagement) : Engagement :=
  {| Likes := Likes e + likes v; Dislikes := Dislikes e + dislikes v;
     Comments := Comments e + comment_count v |}.

(** One iteration of the [forEach]: when [cat] names a property of
    [Object.prototype], [!result[cat]] is false and the sums go to the
    inherited value, so the own properties of [result] do not change. *)
Definition engagement_step (result : list (string * Engagement)) (v : Row)
    : list (string * Engagement) :=
  let cat := engagement_key v in
  if is_proto_key cat then result
  else obj_upd String.eqb cat zero_engagement (add_engagement v) result.

Definition getCategoryEngagementByCountry (vd : VideoData) (c : string)
    : list (string * Engagement) :=
  let source := if String.eqb c "all" then all_videos vd else country_videos vd c in
  fold_left engagement_step source [].

(* ------------------------------------------------------------------ *)
(** ** [getTopVideosByViewsFiltered] *)

Record TopVideo := {
  tv_id : option string;
  tv_title : option string;
  tv_views : Z;
  tv_likes : Z;
  tv_comments : Z;
  tv_country : string;
  tv_category : string;
  tv_ratio : Q
}.

(** [video.video_id || video.title]: an empty or missing id falls back to
    the title. *)
Definition video_id_or_title (video : Row) : option string :=
  match get_field video "video_id" with
  | Some s => if String.eqb s "" then get_field video "title" else Some s
  | None => get_field video "title"
  end.

Definition top_video (video : Row) : TopVideo :=
  {| tv_id := video_id_or_title video;
     tv_title := get_field video "title";
     tv_views := views video;
     tv_likes := likes video;
     tv_comments := comment_count video;
     tv_country := country video;
     tv_category := category_name video;
     tv_ratio := if 0 <? views video
                 then (inject_Z (likes video) / inject_Z (views video))%Q else 0%Q |}.

(** The comparator [(a, b) => b.views - a.views]. *)
Definition by_views_desc (a b : Row) : bool := views b <? views a.

Definition top_candidates (vd : VideoData) (c : string) : list Row :=
  let videos := all_videos vd in
  let videos :=
    if String.eqb c "all" then videos
    else filter (fun v => String.eqb (country v) c) videos in
  filter (fun v => 0 <? views v) videos.

Definition getTopVideosByViewsFiltered (vd : VideoData) (limit : Z) (c : string)
    : list TopVideo :=
  map top_video (js_slice_to limit (sort_by by_views_desc (top_candidates vd c))).

(* ------------------------------------------------------------------ *)
(** ** Channels *)

Record Channel := {
  ch_name : option string;
  ch_videoCount : Z;
  ch_totalViews : Z;
  ch_countries : list string
}.

(** The property key [channelData[channel]]: a missing [channel_title]
    is [undefined], whose key is the string "undefined". *)
Definition channel_key (video : Row) : string :=
  match get_field video "channel_title" with Some s => s | None => "undefined" end.

Definition new_channel (video : Row) : Channel :=
  {| ch_name := get_field video "channel_title"; ch_videoCount := 0;
     ch_totalViews := 0; ch_countries := [] |}.

Definition add_to_channel (video : Row) (ch : Channel) : Channel :=
  {| ch_name := ch_name ch; ch_videoCount := ch_videoCount ch + 1;
     ch_totalViews := ch_totalViews ch + views video;
     ch_countries := set_add (ch_countries ch) (country video) |}.

(** One iteration of the [forEach]; [None] is the [TypeError] thrown when
    the key names a property of [Object.prototype]: the initialisation is
    skipped, and [channelData[channel].countries] is [undefined]. *)
Definition channel_step (acc : option (list (string * Channel))) (video : Row)
    : option (list (string * Channel)) :=
  match acc with
  | None => None
  | Some m =>
      let k := channel_key video in
      if is_proto_key k then None
      else Some (obj_upd String.eqb k (new_channel video) (add_to_channel video) m)
  end.

Definition channel_data (vd : VideoData) : option (list (string * Channel)) :=
  fold_left channel_step (all_videos vd) (Some []).

(** The comparator [(a, b) => b.totalViews - a.totalViews]. *)
Definition by_channel_views_desc (a b : Channel) : bool := ch_totalViews b <? ch_totalViews a.

Definition getAllChannels (vd : VideoData) : option (list Channel) :=
  option_map (fun m => sort_by by_channel_views_desc (map snd (object_entries m)))
    (channel_data vd).

Definition getTopChannels (vd : VideoData) (limit : Z) : option (list Channel) :=
  option_map (js_slice_to limit) (getAllChannels vd).

(** [channel.countries.includes(country)] *)
Definition includes_country (c : string) (ch : Channel) : bool :=
  existsb (String.eqb c) (ch_countries ch).

Definition getChannelsByCountry (vd : VideoData) (c : string) (limit : Z)
    : option (list Channel) :=
  option_map (fun l => js_slice_to limit (filter (includes_country c) l)) (getAllChannels vd).

Definition getChannelLeaderboard (vd : VideoData) (limit : Z) (c : string)
    : option (list Channel) :=
  option_map (fun channels =>
    let channels := if String.eqb c "all" then channels
                    else filter (includes_country c) channels in
    js_slice_to limit channels) (getAllChannels vd).

Definition opt_string_eqb (a b : option string) : bool :=
  match a, b with
  | Some x, Some y => String.eqb x y
  | None, None => true
  | _, _ => false
  end.

(** [new Set()] of the [channel_title] values, [undefined] included. *)
Definition opt_set_add (acc : list (option string)) (x : option string)
    : list (option string) :=
  if existsb (opt_string_eqb x) acc then acc else app acc [x].

Definition getTotalChannelCount (vd : VideoData) : Z :=
  Z.of_nat (List.length (fold_left opt_set_add
    (map (fun video => get_field video "channel_title") (all_videos vd)) [])).

(* ------------------------------------------------------------------ *)
(** ** Lists of categories and countries, performance *)

Definition getAvailableCategories (vd : VideoData) : list string :=
  sort_by string_before
    (set_of (map category_name (filter has_category (all_videos vd)))).

(** The objects of [getCategoryPerformance] and [getCountryPerformance];
    [perf_key] is their [category] or [country] property. *)
Record Performance := {
  perf_key : string;
  perf_totalViews : Z;
  perf_totalLikes : Z;
  perf_totalComments : Z;
  perf_videoCount : Z;
  perf_avgViews : Q
}.

(** [if (videos.length > 0) { ... } return null;] *)
Definition performance (key : string) (videos : list Row) : option Performance :=
  if 0 <? Z.of_nat (List.length videos) then
    let total := sum_by views videos in
    Some {| perf_key := key;
            perf_totalViews := total;
            perf_totalLikes := sum_by likes videos;
            perf_totalComments := sum_by comment_count videos;
            perf_videoCount := Z.of_nat (List.length videos);
            perf_avgViews := (inject_Z total / inject_Z (Z.of_nat (List.length videos)))%Q |}
  else None.

(** [.filter(item => item !== null)] *)
Definition non_null {A} (l : list (option A)) : list A :=
  flat_map (fun o => match o with Some x => [x] | None => [] end) l.

Definition by_perf_views_desc (a b : Performance) : bool :=
  perf_totalViews b <? perf_totalViews a.

Definition getCategoryPerformance (vd : VideoData) : list Performance :=
  sort_by by_perf_views_desc
    (non_null (map (fun category =>
       performance category
         (filter (fun video => String.eqb (category_name video) category) (all_videos vd)))
       (getAvailableCategories vd))).

Definition getCountryPerformance (vd : VideoData) : list Performance :=
  sort_by by_perf_views_desc
    (non_null (map (fun c => performance c (country_videos vd c)) (map fst vd))).

(** [this.videoData[country] && this.videoData[country].length > 0] *)
Definition has_rows (vd : VideoData) (c : string) : bool :=
  match assoc_last vd c with
  | Some rows => Nat.ltb 0 (List.length rows)
  | None => false
  end.

Definition getAvailableCountriesLegacy (vd : VideoData) : list string :=
  sort_by string_before (filter (has_rows vd) (map fst vd)).

(* ------------------------------------------------------------------ *)
(** ** [getStats] of the application: [None] is [null]. *)

Record Stats := {
  st_totalVideos : Z;
  st_totalViews : Z;
  st_totalLikes : Z;
  st_countriesCount : Z;
  st_categoriesCount : Z;
  st_avgViewsPerVideo : JSNum;
  st_avgLikesPerVideo : JSNum
}.

Definition getStats (isDataLoaded : bool) (vd : VideoData) : option Stats :=
  if negb isDataLoaded then None else
  let allVideos := all_videos vd in
  let totalViews := fold_left (fun sum video => sum + views video) allVideos 0 in
  let totalLikes := fold_left (fun sum video => sum + likes video) allVideos 0 in
  let countries := map fst vd in
  let categories := set_of (map category_name allVideos) in
  Some {| st_totalVideos := Z.of_nat (List.length allVideos);
          st_totalViews := totalViews;
          st_totalLikes := totalLikes;
          st_countriesCount := Z.of_nat (List.length countries);
          st_categoriesCount := Z.of_nat (List.length categories);
          st_avgViewsPerVideo := js_div totalViews (Z.of_nat (List.length allVideos));
          st_avgLikesPerVideo := js_div totalLikes (Z.of_nat (List.length allVideos)) |}.

(* ------------------------------------------------------------------ *)
(** ** [getTimelineData] and [getTimelineDataByCountry]

    [date.toISOString().split('T')[0]]: the UTC calendar date of the time
    value, the year as four digits in 0..9999 and as a signed six-digit
    number otherwise. *)

Fixpoint zeros (n : nat) : string :=
  match n with O => EmptyString | S n' => String "0"%char (zeros n') end.

(** [String(n).padStart(w, '0')] for [n >= 0]. *)
Definition pad0 (w : nat) (n : Z) : string :=
  let s := Z_to_string n in zeros (w - String.length s) ++ s.

Definition iso_date_key (t : Z) : string :=
  let '(y, m, d) := civil_from_days (t / ms_per_day) in
  let ys := if (0 <=? y) && (y <=? 9999) then pad0 4 y
            else (if y <? 0 then "-" else "+") ++ pad0 6 (Z.abs y) in
  ys ++ "-" ++ pad0 2 m ++ "-" ++ pad0 2 d.

Record TimelineEntry := {
  tl_date : JSDate;
  tl_count : Z;
  tl_totalViews : Z
}.

(** One iteration of the [forEach]: a [null] date is falsy and skipped;
    an Invalid Date is truthy and its [toISOString()] throws a
    [RangeError], here [None]. *)
Definition timeline_step (tz : Z -> Z) (acc : option (list (string * TimelineEntry)))
    (video : Row) : option (list (string * TimelineEntry)) :=
  match acc with
  | None => None
  | Some m =>
      match trending_date_parsed video with
      | Some (Some d) =>
          match getTime tz d with
          | Some t =>
              Some (obj_upd String.eqb (iso_date_key t)
                      {| tl_date := d; tl_count := 0; tl_totalViews := 0 |}
                      (fun e => {| tl_date := tl_date e; tl_count := tl_count e + 1;
                                   tl_totalViews := tl_totalViews e + views video |}) m)
          | None => None
          end
      | _ => Some m
      end
  end.

(** The comparator [(a, b) => a.date - b.date]. *)
Definition by_date_asc (tz : Z -> Z) (a b : TimelineEntry) : bool :=
  match getTime tz (tl_date a), getTime tz (tl_date b) with
  | Some x, Some y => x <? y
  | _, _ => false
  end.

(** The keys contain a hyphen, so none is an array index and
    [Object.values] lists the entries in insertion order. *)
Definition timeline_of (tz : Z -> Z) (videos : list Row) : option (list TimelineEntry) :=
  option_map (fun m => sort_by (by_date_asc tz) (map snd m))
    (fold_left (timeline_step tz) videos (Some [])).

Definition getTimelineData (tz : Z -> Z) (vd : VideoData) : option (list TimelineEntry) :=
  timeline_of tz (all_videos vd).

Definition getTimelineDataByCountry (tz : Z -> Z) (vd : VideoData) (c : string)
    : option (list TimelineEntry) :=
  if String.eqb c "all" then getTimelineData tz vd
  else match assoc_last vd c with
       | Some rows => timeline_of tz rows
       | None => Some []
       end.

(* ------------------------------------------------------------------ *)
(** ** Helpers of the proofs of the further properties *)

(** [s.includes(c)] for one character. *)
Fixpoint char_in (c : ascii) (s : string) : bool :=
  match s with
  | EmptyString => false
  | String c' s' => Ascii.eqb c' c || char_in c s'
  end.

(** A field written between double quotes. *)
Definition quote_field (f : string) : string :=
  String (chr 34) (f ++ String (chr 34) EmptyString).

(** Loaded data as [loadVideoData] leaves it: one entry per country, and
    every row of a country tagged with that country. *)
Definition tagged_data (vd : VideoData) : Prop :=
  NoDup (map fst vd) /\ Forall (fun '(k, rows) => Forall (fun r => country r = k) rows) vd.

(** Grouping rows into an object by a key, as the [forEach] loops do. *)
Definition group_fold {A} (key : Row -> string) (init : Row -> A) (upd : Row -> A -> A)
    (rows : list Row) (m : list (string * A)) : list (string * A) :=
  fold_left (fun m v => obj_upd String.eqb (key v) (init v) (upd v) m) rows m.

Definition group_value {A} (init : Row -> A) (upd : Row -> A -> A) (start : option A)
    (rows : list Row) : option A :=
  match start, rows with
  | Some e, _ => Some (fold_left (fun e v => upd v e) rows e)
  | None, [] => None
  | None, v :: vs => Some (fold_left (fun e v => upd v e) vs (upd v (init v)))
  end.

(** The key a channel object was stored under. *)
Definition ch_key (ch : Channel) : string :=
  match ch_name ch with Some s => s | None => "undefined" end.

Definition channel_group (rows : list Row) : list (string * Channel) :=
  group_fold channel_key new_channel add_to_channel rows [].

Definition title_key (o : option string) : string :=
  match o with Some s => s | None => "undefined" end.

(** Loaded data with the channels "A" (US and GB) and "B" (US). *)
Definition channels_example : VideoData :=
  [("US", parseCSV [] (lines_text ["channel_title,views"; "A,5"; "B,7"; "A,1"]) "US");
   ("GB", parseCSV [] (lines_text ["channel_title,views"; "A,2"]) "GB")].

Definition channels_example_out : list Channel :=
  [{| ch_name := Some "A"; ch_videoCount := 3; ch_totalViews := 8; ch_countries := ["US"; "GB"] |};
   {| ch_name := Some "B"; ch_videoCount := 1; ch_totalViews := 7; ch_countries := ["US"] |}].

(** The time value of a video's parsed trending date, when it is a valid
    [Date]. *)
Definition video_time (tz : Z -> Z) (v : Row) : option Z :=
  match trending_date_parsed v with Some (Some d) => getTime tz d | _ => None end.

Definition has_invalid_date (v : Row) : bool :=
  match trending_date_parsed v with Some (Some JInvalid) => true | _ => false end.

Definition dated (tz : Z -> Z) (v : Row) : bool :=
  match video_time tz v with Some _ => true | None => false end.

Definition timeline_key (tz : Z -> Z) (v : Row) : string :=
  match video_time tz v with Some t => iso_date_key t | None => "" end.

Definition timeline_init (v : Row) : TimelineEntry :=
  {| tl_date := match trending_date_parsed v with Some (Some d) => d | _ => JInvalid end;
     tl_count := 0; tl_totalViews := 0 |}.

Definition timeline_upd (v : Row) (e : TimelineEntry) : TimelineEntry :=
  {| tl_date := tl_date e; tl_count := tl_count e + 1; tl_totalViews := tl_totalViews e + views v |}.

(** The date key of a timeline entry. *)
Definition entry_key (tz : Z -> Z) (e : TimelineEntry) : string :=
  match getTime tz (tl_date e) with Some t => iso_date_key t | None => "" end.

Definition timeline_inv (tz : Z -> Z) (p : string * TimelineEntry) : Prop :=
  entry_key tz (snd p) = fst p /\ getTime tz (tl_date (snd p)) <> None.

(** A US file with two videos trending on 2017-11-14 and one on
    2017-11-15. *)
Definition timeline_example : VideoData :=
  [("US", parseCSV [] (lines_text ["trending_date,views"; "17.14.11,5"; "17.14.11,7";
                                   "17.15.11,1"]) "US")].

Definition timeline_example_out : list TimelineEntry :=
  [{| tl_date := JDate (make_day 2017 10 14); tl_count := 2; tl_totalViews := 12 |};
   {| tl_date := JDate (make_day 2017 10 15); tl_count := 1; tl_totalViews := 1 |}].

(* ================================================================== *)
(** * Properties *)

(* ------------------------------------------------------------------ *)
(** ** [getViewsByCountry] *)

Lemma fold_views_acc (rows : list Row) (acc : Z) :
  fold_left (fun sum video => sum + views video) rows acc =
  acc + fold_right Z.add 0 (map views rows).
Proof.
  revert acc; induction rows as [|r rows IH]; intro acc; simpl.
  - lia.
  - rewrite IH; lia.
Qed.

(** C1: for every loaded country, [totalViews] is the sum of the views of
    its rows, [videoCount] their number and [avgViews] the quotient, [NaN]
    for no rows; two US rows with views 100 and 300 give 400, 200 and 2. *)
Theorem getViewsByCountry_correct :
  (forall vd : VideoData,
     getViewsByCountry vd =
     map (fun '(c, rows) =>
       let total := fold_right Z.add 0 (map views rows) in
       let n := Z.of_nat (List.length rows) in
       (c, {| totalViews := total;
              avgViews := match rows with
                          | [] => NNaN
                          | _ => NFin (inject_Z total / inject_Z n)
                          end;
              videoCount := n |})) vd) /\
  (let out := getViewsByCountry
                [("US", parseCSV [] (lines_text ["views"; "100"; "300"]) "US")] in
   map fst out = ["US"] /\
   exists cv q, out = [("US", cv)] /\ totalViews cv = 400 /\ videoCount cv = 2 /\
     avgViews cv = NFin q /\ (q == 200)%Q).
Proof.
  split.
  - intro vd; unfold getViewsByCountry; apply map_ext; intros [c rows].
    unfold views_of_country; rewrite fold_views_acc; simpl.
    destruct rows as [|r rows']; [reflexivity|].
    unfold js_div.
    replace (Z.of_nat (List.length (r :: rows')) =? 0) with false
      by (symmetry; apply Z.eqb_neq; simpl; lia).
    reflexivity.
  - vm_compute. split; [reflexivity|].
    eexists; eexists; split; [reflexivity|].
    repeat split; reflexivity.
Qed.

(* ------------------------------------------------------------------ *)
(** ** [parseCSV]: the row cap *)

Lemma skipn_nth_cons {A} (l : list A) (i : nat) (d : A) :
  (i < List.length l)%nat -> skipn i l = nth i l d :: skipn (S i) l.
Proof.
  revert i; induction l as [|x l IH]; intros i Hi; simpl in Hi; [lia|].
  destruct i as [|i]; [reflexivity|].
  simpl; apply IH; lia.
Qed.

Lemma csv_loop_flat_map cats ctry headers lines :
  forall k i, (i + k <= List.length lines)%nat ->
  csv_loop cats ctry headers lines i k =
  flat_map (csv_line cats ctry headers) (firstn k (skipn i lines)).
Proof.
  induction k as [|k IH]; intros i Hik; [reflexivity|].
  simpl. rewrite (skipn_nth_cons lines i EmptyString) by lia.
  simpl. rewrite IH by lia. reflexivity.
Qed.

Lemma csv_line_length cats ctry headers line :
  (List.length (csv_line cats ctry headers line) <= 1)%nat.
Proof.
  unfold csv_line; destruct (Nat.leb _ _); simpl; lia.
Qed.

Lemma flat_map_csv_line_length cats ctry headers ls :
  (List.length (flat_map (csv_line cats ctry headers) ls) <= List.length ls)%nat.
Proof.
  induction ls as [|l ls IH]; simpl; [lia|].
  rewrite length_app. pose proof (csv_line_length cats ctry headers l). lia.
Qed.

Lemma split_aux_nonempty sep s cur : (1 <= List.length (split_aux sep s cur))%nat.
Proof.
  revert cur; induction s as [|c s IH]; intro cur; simpl; [lia|].
  destruct (Ascii.eqb c sep); simpl; [lia|apply IH].
Qed.

(** C4: [parseCSV] reads the header line and then only the first 1000
    data lines, so it returns at most 1000 rows. *)
Theorem parseCSV_row_cap (cats : Categories) (text ctry : string) :
  let lines := split newline (trim text) in
  let headers := split ","%char (nth 0 lines EmptyString) in
  parseCSV cats text ctry =
    flat_map (csv_line cats ctry headers) (firstn 1000 (skipn 1 lines)) /\
  (List.length (parseCSV cats text ctry) <= 1000)%nat.
Proof.
  intros lines headers.
  assert (Heq : parseCSV cats text ctry =
    flat_map (csv_line cats ctry headers) (firstn 1000 (skipn 1 lines))).
  { unfold parseCSV; fold lines; fold headers.
    assert (H1 : (1 <= List.length lines)%nat) by apply split_aux_nonempty.
    clearbody lines headers.
    rewrite csv_loop_flat_map
      by (destruct (Nat.min_spec (List.length lines) 1001) as [[? ->]|[? ->]]; lia).
    f_equal.
    destruct (Nat.le_ge_cases (List.length lines) 1001) as [Hle|Hge].
    - rewrite Nat.min_l by exact Hle.
      rewrite !firstn_all2; [reflexivity| |]; try rewrite length_skipn; lia.
    - rewrite Nat.min_r by exact Hge. reflexivity. }
  split; [exact Heq|].
  rewrite Heq.
  eapply Nat.le_trans; [apply flat_map_csv_line_length|].
  rewrite length_firstn; lia.
Qed.

(* ------------------------------------------------------------------ *)
(** ** [parseCSV]: numeric fields *)

Lemma digit_value_nonneg radix c v : digit_value radix c = Some v -> 0 <= v.
Proof.
  unfold digit_value.
  set (n := Z.of_nat (nat_of_ascii c)).
  assert (0 <= n) by (unfold n; lia).
  destruct (Z.leb_spec 48 n), (Z.leb_spec n 57), (Z.leb_spec 97 n),
           (Z.leb_spec n 122), (Z.leb_spec 65 n), (Z.leb_spec n 90);
    simpl; destruct (_ <? radix); intro H'; inversion H'; lia.
Qed.

Lemma digits_prefix_nonneg radix s : Forall (fun d => 0 <= d) (digits_prefix radix s).
Proof.
  induction s as [|c s IH]; simpl; [constructor|].
  destruct (digit_value radix c) eqn:E; [|constructor].
  constructor; [eapply digit_value_nonneg; eauto|exact IH].
Qed.

Lemma digits_value_acc_nonneg radix ds acc :
  0 <= radix -> 0 <= acc -> Forall (fun d => 0 <= d) ds ->
  0 <= fold_left (fun acc d => acc * radix + d) ds acc.
Proof.
  revert acc; induction ds as [|d ds IH]; intros acc Hr Ha Hds; simpl; [exact Ha|].
  inversion Hds; subst. apply IH; auto; nia.
Qed.

Lemma parse_radix_nonneg s2 : 0 <= fst (parse_radix s2).
Proof.
  unfold parse_radix.
  destruct s2 as [|c [|x r]]; [simpl; lia|destruct c as [[] [] [] [] [] [] [] []]; simpl; lia|].
  destruct c as [[] [] [] [] [] [] [] []]; simpl; try lia.
  destruct (_ || _)%bool; simpl; lia.
Qed.

(** [parseInt] is negative only on a text whose first non-blank code
    unit is a minus sign. *)
Lemma parse_int_negative s z :
  parse_int s = Some z -> z < 0 -> String.prefix "-" (trim_start s) = true.
Proof.
  unfold parse_int.
  destruct (parse_sign (trim_start s)) as [sign s2] eqn:Es.
  destruct (parse_radix s2) as [radix s3] eqn:Er.
  pose proof (parse_radix_nonneg s2) as Hr; rewrite Er in Hr; simpl in Hr.
  intros Hp Hz.
  destruct (digits_prefix radix s3) as [|d ds] eqn:Ed; [discriminate|].
  injection Hp as <-.
  pose proof (digits_prefix_nonneg radix s3) as Hall; rewrite Ed in Hall.
  pose proof (digits_value_acc_nonneg radix (d :: ds) 0 Hr (Z.le_refl 0) Hall) as Hv.
  unfold digits_value in Hz.
  unfold parse_sign in Es.
  destruct (trim_start s) as [|c r].
  - injection Es as <- _; lia.
  - destruct (Ascii.eqb c "-"%char) eqn:Ec.
    + apply Ascii.eqb_eq in Ec; subst c; destruct r; reflexivity.
    + destruct (Ascii.eqb c "+"%char); injection Es as <- _; lia.
Qed.

Lemma csv_loop_make_row cats ctry headers lines :
  forall k i r, In r (csv_loop cats ctry headers lines i k) ->
  exists values, r = make_row cats ctry headers values.
Proof.
  induction k as [|k IH]; intros i r Hin; simpl in Hin; [contradiction|].
  apply in_app_or in Hin as [Hin|Hin]; [|eapply IH; eauto].
  unfold csv_line in Hin.
  destruct (Nat.leb _ _); simpl in Hin; [|contradiction].
  destruct Hin as [<-|[]]; eauto.
Qed.

Lemma parseCSV_make_row cats text ctry r :
  In r (parseCSV cats text ctry) ->
  exists headers values, r = make_row cats ctry headers values.
Proof.
  unfold parseCSV; intro Hin.
  apply csv_loop_make_row in Hin as [values ->]; eauto.
Qed.

Lemma num_field_spec fs k :
  num_field fs k = match assoc_last fs k with Some s => or0 (parse_int s) | None => 0 end /\
  (num_field fs k < 0 ->
   exists s, assoc_last fs k = Some s /\ String.prefix "-" (trim_start s) = true).
Proof.
  unfold num_field; split; [reflexivity|].
  destruct (assoc_last fs k) as [s|]; [|lia].
  intro Hneg; exists s; split; [reflexivity|].
  destruct (parse_int s) as [z|] eqn:E; simpl in Hneg; [|lia].
  eapply parse_int_negative; eauto.
Qed.

(** C2 (as amended): each of [views], [likes], [dislikes] and
    [comment_count] of a parsed row is [parseInt] of the row's field, or 0
    when that is [NaN] or the field is missing; it is negative only when
    the field's text starts with a minus sign. *)
Theorem parseCSV_numeric_fields (cats : Categories) (text ctry : string) (r : Row)
    (Hin : In r (parseCSV cats text ctry)) :
  Forall (fun '(k, v) =>
    v = match get_field r k with Some s => or0 (parse_int s) | None => 0 end /\
    (v < 0 -> exists s, get_field r k = Some s /\ String.prefix "-" (trim_start s) = true))
    (numeric_fields r).
Proof.
  apply parseCSV_make_row in Hin as [headers [values ->]].
  unfold numeric_fields, get_field; simpl.
  repeat constructor; apply num_field_spec.
Qed.

Lemma parseCSV_numeric_fields_witness :
  In (make_row [] "US" ["views"] ["-5"]) (parseCSV [] (lines_text ["views"; "-5"]) "US") /\
  Forall (fun '(k, v) =>
    v = match get_field (make_row [] "US" ["views"] ["-5"]) k with
        | Some s => or0 (parse_int s) | None => 0 end /\
    (v < 0 -> exists s, get_field (make_row [] "US" ["views"] ["-5"]) k = Some s /\
                        String.prefix "-" (trim_start s) = true))
    (numeric_fields (make_row [] "US" ["views"] ["-5"])).
Proof.
  assert (H : In (make_row [] "US" ["views"] ["-5"])
                 (parseCSV [] (lines_text ["views"; "-5"]) "US"))
    by (vm_compute; left; reflexivity).
  split; [exact H|].
  apply (parseCSV_numeric_fields [] (lines_text ["views"; "-5"]) "US"); exact H.
Defined.

(** C2 (counterexample): a [views] field ["-5"] gives a row with views
    -5. *)
Lemma parseCSV_negative_views :
  ~ (forall cats text ctry r, In r (parseCSV cats text ctry) ->
       0 <= views r /\ 0 <= likes r /\ 0 <= dislikes r /\ 0 <= comment_count r).
Proof.
  intro H.
  destruct (H [] (lines_text ["views"; "-5"]) "US" (make_row [] "US" ["views"] ["-5"]))
    as [Hv _].
  - vm_compute; left; reflexivity.
  - vm_compute in Hv; apply Hv; reflexivity.
Qed.

(* ------------------------------------------------------------------ *)
(** ** [parseTrendingDate] *)

Lemma parseTrendingDate_null_iff (s : string) :
  parseTrendingDate s = None <-> List.length (split "."%char s) <> 3%nat.
Proof.
  unfold parseTrendingDate.
  destruct (split "."%char s) as [|p0 [|p1 [|p2 [|p3 ps]]]]; simpl;
    split; intro H; try reflexivity; try discriminate; try lia.
Qed.

(** C3 (code bug): [parseTrendingDate] returns [null] exactly when the
    string does not split into three dot-separated parts; with three
    parts it returns [new Date(2000 + parseInt(p0), parseInt(p2) - 1,
    parseInt(p1))]: ["17.14.11"] gives 2017-11-14 and ["bad"] gives
    [null], but a malformed three-part string such as ["a.b.c"], with a
    part that is not an integer, gives an Invalid Date rather than [null]:
    [new Date(NaN, NaN, NaN)] does not throw, so the [catch] that returns
    [null] is never reached. *)
Theorem parseTrendingDate_invalid_not_null :
  (forall s, parseTrendingDate s = None <-> List.length (split "."%char s) <> 3%nat) /\
  (forall s p0 p1 p2, split "."%char s = [p0; p1; p2] ->
     parseTrendingDate s =
       Some (js_new_date (opt_add 2000 (parse_int p0))
               (option_map (fun m => m - 1) (parse_int p2)) (parse_int p1)) /\
     (parse_int p0 = None \/ parse_int p1 = None \/ parse_int p2 = None ->
      parseTrendingDate s = Some JInvalid)) /\
  (exists d, parseTrendingDate "17.14.11" = Some (JDate d) /\
             civil_from_days d = (2017, 11, 14)) /\
  parseTrendingDate "bad" = None /\
  parseTrendingDate "a.b.c" = Some JInvalid /\ parseTrendingDate "a.b.c" <> None.
Proof.
  split; [exact parseTrendingDate_null_iff|].
  split.
  - intros s p0 p1 p2 Hs; unfold parseTrendingDate; rewrite Hs.
    split; [reflexivity|].
    intros [H|[H|H]]; rewrite H; unfold js_new_date; [reflexivity| |];
      destruct (opt_add 2000 (parse_int p0)); try reflexivity;
      destruct (parse_int p2); reflexivity.
  - split; [exists 17484; split; reflexivity|].
    split; [reflexivity|].
    split; [reflexivity|discriminate].
Qed.

(* ------------------------------------------------------------------ *)
(** ** [getViewsVsLikes] *)

Lemma in_firstn_in {A} n (l : list A) x : In x (firstn n l) -> In x l.
Proof.
  intro H; rewrite <- (firstn_skipn n l); apply in_or_app; left; exact H.
Qed.

Lemma bounds_within lo hi x :
  at_least lo x && at_most hi x = true -> within lo hi x.
Proof.
  intro H; apply andb_prop in H as [Hlo Hhi]; split.
  - intros q ->; unfold at_least in Hlo; apply Qle_bool_iff in Hlo; exact Hlo.
  - intros q ->; unfold at_most in Hhi; apply Qle_bool_iff in Hhi; exact Hhi.
Qed.

Lemma vvl_filtered_spec vd c f v :
  In v (vvl_filtered vd c f) ->
  0 < views v /\ 0 < likes v /\
  within (minViews f) (maxViews f) (views v) /\ within (minLikes f) (maxLikes f) (likes v).
Proof.
  unfold vvl_filtered; intro H.
  apply filter_In in H as [H Hl].
  apply filter_In in H as [H Hv].
  apply filter_In in H as [_ Hp].
  apply andb_prop in Hp as [H1 H2]; apply Z.ltb_lt in H1, H2.
  refine (conj H1 (conj H2 (conj _ _))); apply bounds_within; assumption.
Qed.

(** C5: for a non-negative [sampleSize] (the callers pass 300) the sample
    has at most [sampleSize] points, all of them when fewer rows match;
    a negative [sampleSize] keeps, as [slice(0, sampleSize)] does, all but
    the last [-sampleSize] of the shuffled matching rows; and each point
    has positive views and likes within the bounds given. *)
Theorem getViewsVsLikes_bounds (vd : VideoData) (sampleSize : Z) (c : string) (f : Filters)
    (out : list ScatterPoint) (H : getViewsVsLikes vd sampleSize c f out) :
  (0 <= sampleSize ->
   Z.of_nat (List.length out) <= sampleSize /\
   Z.of_nat (List.length out) = Z.min sampleSize (Z.of_nat (List.length (vvl_filtered vd c f)))) /\
  (sampleSize < 0 ->
   Z.of_nat (List.length out) =
   Z.max 0 (Z.of_nat (List.length (vvl_filtered vd c f)) + sampleSize)) /\
  Forall (fun p => 0 < sp_views p /\ 0 < sp_likes p /\
                   within (minViews f) (maxViews f) (sp_views p) /\
                   within (minLikes f) (maxLikes f) (sp_likes p)) out.
Proof.
  destruct H as [order [Hperm ->]].
  pose proof (Permutation_length Hperm) as Hlen.
  split; [|split].
  - intro Hn; rewrite length_map; unfold js_slice_to.
    replace (sampleSize <? 0) with false by (symmetry; apply Z.ltb_ge; lia).
    rewrite length_firstn, Hlen. lia.
  - intro Hn; rewrite length_map; unfold js_slice_to.
    replace (sampleSize <? 0) with true by (symmetry; apply Z.ltb_lt; lia).
    rewrite length_firstn, Hlen. lia.
  - apply Forall_forall; intros p Hp.
    apply in_map_iff in Hp as [v [<- Hv]].
    unfold js_slice_to in Hv; apply in_firstn_in in Hv.
    apply (Permutation_in _ (Permutation_sym Hperm)) in Hv.
    apply vvl_filtered_spec in Hv; exact Hv.
Qed.

Lemma getViewsVsLikes_bounds_witness :
  let out := map to_point (js_slice_to 1 (vvl_filtered scatter_data "all" no_filters)) in
  getViewsVsLikes scatter_data 1 "all" no_filters out /\
  (0 <= 1 ->
   Z.of_nat (List.length out) <= 1 /\
   Z.of_nat (List.length out) =
   Z.min 1 (Z.of_nat (List.length (vvl_filtered scatter_data "all" no_filters)))) /\
  (1 < 0 ->
   Z.of_nat (List.length out) =
   Z.max 0 (Z.of_nat (List.length (vvl_filtered scatter_data "all" no_filters)) + 1)) /\
  Forall (fun p => 0 < sp_views p /\ 0 < sp_likes p /\
                   within (minViews no_filters) (maxViews no_filters) (sp_views p) /\
                   within (minLikes no_filters) (maxLikes no_filters) (sp_likes p)) out.
Proof.
  intro out.
  assert (H : getViewsVsLikes scatter_data 1 "all" no_filters out)
    by (exists (vvl_filtered scatter_data "all" no_filters); split; reflexivity).
  split; [exact H|].
  exact (getViewsVsLikes_bounds scatter_data 1 "all" no_filters out H).
Defined.

(* ------------------------------------------------------------------ *)
(** ** Sorting, sets and property lookups *)

Section SortBy.
Context {A : Type} (before : A -> A -> bool).

Lemma insert_by_perm x l : Permutation (insert_by before x l) (x :: l).
Proof.
  induction l as [|y l IH]; simpl; [reflexivity|].
  destruct (before x y); [reflexivity|].
  rewrite IH; apply perm_swap.
Qed.

Lemma sort_by_perm_acc l acc :
  Permutation (fold_left (fun acc x => insert_by before x acc) l acc) (l ++ acc).
Proof.
  revert acc; induction l as [|x l IH]; intro acc; simpl; [reflexivity|].
  rewrite IH, insert_by_perm; symmetry; apply Permutation_middle.
Qed.

Lemma sort_by_perm l : Permutation (sort_by before l) l.
Proof.
  unfold sort_by; rewrite sort_by_perm_acc, app_nil_r; reflexivity.
Qed.
End SortBy.

Lemma set_add_spec acc x :
  NoDup acc -> NoDup (set_add acc x) /\ (forall y, In y (set_add acc x) <-> In y acc \/ y = x).
Proof.
  intro Hnd; unfold set_add.
  destruct (existsb (String.eqb x) acc) eqn:E.
  - apply existsb_exists in E as [z [Hz Hxz]]; apply String.eqb_eq in Hxz; subst z.
    split; [exact Hnd|]; intro y; split; [tauto|intros [H| ->]; auto].
  - split.
    + apply NoDup_app; [exact Hnd|constructor; [intros []|constructor]|].
      intros y Hy [Hxy|[]]; subst x.
      assert (existsb (String.eqb y) acc = true)
        by (apply existsb_exists; exists y; split; [exact Hy|apply String.eqb_refl]).
      congruence.
    + intro y; rewrite in_app_iff; simpl; split; intros [H|H]; intuition.
Qed.

Lemma set_of_acc_spec l acc :
  NoDup acc ->
  NoDup (fold_left set_add l acc) /\
  (forall y, In y (fold_left set_add l acc) <-> In y acc \/ In y l).
Proof.
  revert acc; induction l as [|x l IH]; intros acc Hnd; simpl.
  - split; [exact Hnd|intro y; tauto].
  - destruct (set_add_spec acc x Hnd) as [Hnd' Hin'].
    destruct (IH _ Hnd') as [Hnd'' Hin''].
    split; [exact Hnd''|intro y; rewrite Hin'', Hin'; intuition].
Qed.

Lemma set_of_spec l : NoDup (set_of l) /\ (forall y, In y (set_of l) <-> In y l).
Proof.
  destruct (set_of_acc_spec l [] (NoDup_nil _)) as [H1 H2].
  split; [exact H1|intro y; rewrite H2; simpl; tauto].
Qed.

(** A property read on an object whose keys are distinct. *)
Lemma assoc_last_in {A} (m : list (string * A)) k v :
  assoc_last m k = Some v -> In (k, v) m.
Proof.
  unfold assoc_last.
  destruct (find _ (rev m)) as [[k' v']|] eqn:E; [|discriminate].
  intro H; injection H as <-.
  apply find_some in E as [Hin Hk]; simpl in Hk; apply String.eqb_eq in Hk; subst k'.
  apply in_rev; exact Hin.
Qed.

Lemma nodup_keys_unique {A} (m : list (string * A)) k v v' :
  NoDup (map fst m) -> In (k, v) m -> In (k, v') m -> v = v'.
Proof.
  induction m as [|[k0 v0] m IH]; intros Hnd H1 H2; [destruct H1|].
  inversion Hnd as [|? ? Hnot Hnd']; subst.
  destruct H1 as [E1|H1], H2 as [E2|H2].
  - congruence.
  - injection E1 as -> ->; exfalso; apply Hnot; apply (in_map fst _ (k, v')); exact H2.
  - injection E2 as -> ->; exfalso; apply Hnot; apply (in_map fst _ (k, v)); exact H1.
  - apply IH; auto.
Qed.

Lemma assoc_last_nodup {A} (m : list (string * A)) k v :
  NoDup (map fst m) -> In (k, v) m -> assoc_last m k = Some v.
Proof.
  intros Hnd Hin.
  destruct (assoc_last m k) as [v'|] eqn:E.
  - apply assoc_last_in in E; f_equal; eapply nodup_keys_unique; eauto.
  - unfold assoc_last in E.
    destruct (find (fun p => String.eqb (fst p) k) (rev m)) as [[]|] eqn:F; [discriminate|].
    pose proof (find_none _ _ F (k, v)) as Hf; simpl in Hf.
    rewrite String.eqb_refl in Hf; discriminate Hf; apply in_rev; rewrite rev_involutive.
    exact Hin.
Qed.

Lemma assoc_last_first {A} (m : list (string * A)) k :
  NoDup (map fst m) -> assoc_last m k = assoc_first m k.
Proof.
  intro Hnd; unfold assoc_first.
  destruct (find (fun p => String.eqb (fst p) k) m) as [[k' v]|] eqn:E; simpl.
  - apply find_some in E as [Hin Hk]; simpl in Hk; apply String.eqb_eq in Hk; subst k'.
    apply assoc_last_nodup; assumption.
  - unfold assoc_last.
    destruct (find (fun p => String.eqb (fst p) k) (rev m)) as [[k' v]|] eqn:F; [|reflexivity].
    apply find_some in F as [Hin Hk]; apply in_rev in Hin.
    rewrite (find_none _ _ E _ Hin) in Hk; discriminate.
Qed.

(* ------------------------------------------------------------------ *)
(** ** Counting objects *)

Lemma obj_upd_keys {A} k (d : A) f (m : list (string * A)) y :
  In y (map fst (obj_upd String.eqb k d f m)) -> y = k \/ In y (map fst m).
Proof.
  induction m as [|[k' v] m IH]; simpl.
  - intros [<-|[]]; auto.
  - destruct (String.eqb k' k); simpl; [tauto|].
    intros [<-|H]; [tauto|]; destruct (IH H); tauto.
Qed.

Lemma obj_upd_nodup {A} k (d : A) f (m : list (string * A)) :
  NoDup (map fst m) -> NoDup (map fst (obj_upd String.eqb k d f m)).
Proof.
  induction m as [|[k' v] m IH]; simpl; intro Hnd.
  - repeat constructor; intros [].
  - inversion Hnd as [|? ? Hnot Hnd']; subst.
    destruct (String.eqb_spec k' k) as [->|Hne]; simpl; constructor; auto.
    intro H; apply obj_upd_keys in H as [->|H]; auto.
Qed.

Lemma fold_left_inv {A B} (P : A -> Prop) (f : A -> B -> A) l a :
  P a -> (forall a x, P a -> P (f a x)) -> P (fold_left f l a).
Proof.
  revert a; induction l as [|x l IH]; intros a Ha Hf; simpl; [exact Ha|].
  apply IH; auto.
Qed.

Lemma assoc_first_obj_upd {A} k (d : A) f m x :
  assoc_first (obj_upd String.eqb k d f m) x =
  if String.eqb k x
  then Some (match assoc_first m k with Some v => f v | None => f d end)
  else assoc_first m x.
Proof.
  unfold assoc_first; induction m as [|[k' v] m IH]; simpl.
  - destruct (String.eqb k x); reflexivity.
  - destruct (String.eqb_spec k' k) as [E1|Hne].
    + subst k'; simpl.
      destruct (String.eqb_spec k x) as [E2|Hne'].
      * subst x; simpl; rewrite ?String.eqb_refl; reflexivity.
      * reflexivity.
    + simpl; destruct (String.eqb_spec k' x) as [E2|Hne'].
      * subst x; simpl; destruct (String.eqb_spec k k'); [congruence|reflexivity].
      * exact IH.
Qed.

Lemma obj_upd_keys_iff {A} k (d : A) f (m : list (string * A)) y :
  In y (map fst (obj_upd String.eqb k d f m)) <-> y = k \/ In y (map fst m).
Proof.
  split; [apply obj_upd_keys|].
  induction m as [|[k' v] m IH]; simpl.
  - intros [->|[]]; left; reflexivity.
  - destruct (String.eqb_spec k' k) as [->|Hne]; simpl.
    + intros [->|[->|H]]; auto.
    + intros [->|[->|H]]; auto.
Qed.

Lemma count_or0_bump m k x :
  NoDup (map fst m) ->
  count_or0 (count_bump k m) x =
  if String.eqb k x && negb (String.eqb k "__proto__")
  then count_plus1 (count_or0 m x) else count_or0 m x.
Proof.
  intro Hnd; unfold count_bump.
  destruct (String.eqb k "__proto__"); [rewrite andb_false_r; reflexivity|].
  rewrite andb_true_r; unfold count_or0.
  rewrite (assoc_last_first (obj_upd _ _ _ _ _)) by (apply obj_upd_nodup; exact Hnd).
  rewrite assoc_first_obj_upd, assoc_last_first by exact Hnd.
  destruct (String.eqb_spec k x) as [->|Hne]; [|reflexivity].
  destruct (assoc_first m x); reflexivity.
Qed.

Lemma count_bump_keys m k y :
  In y (map fst (count_bump k m)) <-> In y (map fst m) \/ (y = k /\ k <> "__proto__").
Proof.
  unfold count_bump.
  destruct (String.eqb_spec k "__proto__") as [->|Hne].
  - split; [tauto|intros [H|[_ []]]; [exact H|reflexivity]].
  - rewrite obj_upd_keys_iff; tauto.
Qed.

Lemma count_bump_nodup m k : NoDup (map fst m) -> NoDup (map fst (count_bump k m)).
Proof.
  intro Hnd; unfold count_bump; destruct (String.eqb k "__proto__");
    [exact Hnd|apply obj_upd_nodup; exact Hnd].
Qed.

Lemma iter_plus1_succ n v :
  Nat.iter n count_plus1 (count_plus1 v) = Nat.iter (S n) count_plus1 v.
Proof. induction n as [|n IH]; simpl; [reflexivity|]; rewrite IH; reflexivity. Qed.

Lemma iter_num n z : Nat.iter n count_plus1 (CNum z) = CNum (z + Z.of_nat n).
Proof.
  induction n as [|n IH]; simpl; [f_equal; lia|].
  rewrite IH; simpl; f_equal; lia.
Qed.





(** The counters of [rows] from [m]: the keys added are the names of the
    selected rows other than [__proto__], and a key is bumped once per
    selected row of that name. *)
Lemma count_fold_spec sel rows m :
  NoDup (map fst m) ->
  NoDup (map fst (count_fold sel rows m)) /\
  (forall x, count_or0 (count_fold sel rows m) x =
     Nat.iter (if String.eqb x "__proto__" then 0%nat
               else List.length (filter (fun r => sel r && String.eqb (category_name r) x) rows))
       count_plus1 (count_or0 m x)) /\
  (forall y, In y (map fst (count_fold sel rows m)) <->
     In y (map fst m) \/
     (y <> "__proto__" /\ exists r, In r rows /\ sel r = true /\ category_name r = y)).
Proof.
  unfold count_fold; revert m; induction rows as [|r rows IH]; intros m Hnd; simpl.
  - split; [exact Hnd|split].
    + intro x; destruct (String.eqb x "__proto__"); reflexivity.
    + intro y; split; [tauto|intros [H|[_ [r [[] _]]]]; exact H].
  - destruct (sel r) eqn:Hs; simpl.
    + destruct (IH _ (count_bump_nodup m (category_name r) Hnd)) as [H1 [H2 H3]].
      split; [exact H1|split].
      * intro x; rewrite H2, count_or0_bump by exact Hnd.
        destruct (String.eqb_spec (category_name r) x) as [<-|Hne]; simpl.
        -- destruct (String.eqb (category_name r) "__proto__"); simpl; [reflexivity|].
           apply iter_plus1_succ.
        -- reflexivity.
      * intro y; rewrite H3, count_bump_keys; split.
        -- intros [[H|[Hy Hp]]|[Hy [r' [Hr' [Hs' Hn']]]]].
           ++ left; exact H.
           ++ subst y; right; split; [exact Hp|exists r; auto].
           ++ right; split; [exact Hy|exists r'; auto].
        -- intros [H|[Hy [r' [[<-|Hr'] [Hs' Hn']]]]].
           ++ left; left; exact H.
           ++ left; right; subst y; split; [reflexivity|exact Hy].
           ++ right; split; [exact Hy|exists r'; auto].
    + destruct (IH _ Hnd) as [H1 [H2 H3]].
      split; [exact H1|split; [exact H2|]].
      intro y; rewrite H3; split.
      * intros [H|[Hy [r' [Hr' [Hs' Hn']]]]]; [left; exact H|].
        right; split; [exact Hy|exists r'; auto].
      * intros [H|[Hy [r' [[<-|Hr'] [Hs' Hn']]]]]; [left; exact H|congruence|].
        right; split; [exact Hy|exists r'; auto].
Qed.

(** The counter of [x] after counting the selected rows from [{}]. *)
Lemma count_or0_fold sel rows x :
  count_or0 (count_fold sel rows []) x =
  Nat.iter (if String.eqb x "__proto__" then 0%nat
            else List.length (filter (fun r => sel r && String.eqb (category_name r) x) rows))
    count_plus1 (if is_proto_key x then CInherited x else CNum 0).
Proof.
  destruct (count_fold_spec sel rows [] (NoDup_nil _)) as [_ [H _]]; apply H.
Qed.

Lemma count_or0_fold_num sel rows x :
  is_proto_key x = false ->
  count_or0 (count_fold sel rows []) x =
  CNum (Z.of_nat (List.length (filter (fun r => sel r && String.eqb (category_name r) x) rows))).
Proof.
  intro Hx; rewrite count_or0_fold, Hx.
  destruct (String.eqb_spec x "__proto__") as [->|_]; [discriminate|].
  apply iter_num.
Qed.






Lemma count_as_zsum {A} (p : A -> bool) l :
  Z.of_nat (List.length (filter p l)) = zsum (map (fun x => if p x then 1 else 0) l).
Proof.
  unfold zsum, qsum in *.
  induction l as [|x l IH]; simpl; [reflexivity|].
  destruct (p x); cbn [List.length]; lia.
Qed.

Lemma zsum_map_add {A} (f g : A -> Z) l :
  zsum (map (fun x => f x + g x) l) = zsum (map f l) + zsum (map g l).
Proof. induction l; simpl; lia. Qed.

Lemma zsum_swap {A B} (f : A -> B -> Z) la lb :
  zsum (map (fun b => zsum (map (fun a => f a b) la)) lb) =
  zsum (map (fun a => zsum (map (fun b => f a b) lb)) la).
Proof.
  unfold zsum, qsum in *.
  induction lb as [|b lb IH]; simpl.
  - induction la; simpl; lia.
  - rewrite IH, <- zsum_map_add; reflexivity.
Qed.




(* ------------------------------------------------------------------ *)
(** ** [getHeatmapData] *)

Lemma heat_categories_spec vd :
  NoDup (heat_categories vd) /\
  (forall x, In x (heat_categories vd) <->
     exists r, In r (all_videos vd) /\ has_category r = true /\ category_name r = x).
Proof.
  unfold heat_categories.
  destruct (set_of_spec (map category_name (filter has_category (all_videos vd))))
    as [Hnd Hin].
  split.
  - eapply Permutation_NoDup; [symmetry; apply sort_by_perm|exact Hnd].
  - intro x; split.
    + intro H; apply (Permutation_in _ (sort_by_perm _ _)) in H.
      apply Hin, in_map_iff in H as [r [<- Hr]]; apply filter_In in Hr as [Hr Hc].
      exists r; auto.
    + intros [r [Hr [Hc <-]]].
      apply (Permutation_in _ (Permutation_sym (sort_by_perm _ _))).
      apply Hin, in_map; apply filter_In; auto.
Qed.








(* ------------------------------------------------------------------ *)
(** ** [getPublishingTimingData] *)

Lemma zsum_app (l1 l2 : list Z) : zsum (app l1 l2) = zsum l1 + zsum l2.
Proof. unfold zsum; induction l1; simpl; lia. Qed.

Lemma zsum_zero {A} (l : list A) : zsum (map (fun _ => 0) l) = 0.
Proof. unfold zsum; induction l; simpl; lia. Qed.

Lemma zsum_filter {A} (p : A -> bool) (f : A -> Z) l :
  zsum (map f (filter p l)) = zsum (map (fun x => if p x then f x else 0) l).
Proof.
  unfold zsum; induction l as [|x l IH]; simpl; [reflexivity|].
  destruct (p x); simpl; lia.
Qed.

Lemma zsum_list_prod {A B} (f : A * B -> Z) la lb :
  zsum (map f (list_prod la lb)) =
  zsum (map (fun a => zsum (map (fun b => f (a, b)) lb)) la).
Proof.
  induction la as [|a la IH]; simpl; [reflexivity|].
  rewrite map_app, zsum_app, IH, map_map; reflexivity.
Qed.

Lemma zsum_seq_indicator (x w : Z) (a n : nat) :
  zsum (map (fun c => if x =? c then w else 0) (map Z.of_nat (seq a n))) =
  if (Z.of_nat a <=? x) && (x <? Z.of_nat (a + n)) then w else 0.
Proof.
  revert a; induction n as [|n IH]; intro a.
  - simpl; rewrite Nat.add_0_r.
    destruct (Z.leb_spec (Z.of_nat a) x), (Z.ltb_spec x (Z.of_nat a)); simpl;
      try reflexivity; lia.
  - cbn [seq map]; unfold zsum in *; cbn [fold_right]; rewrite IH.
    replace (S a + n)%nat with (a + S n)%nat by lia.
    destruct (Z.eqb_spec x (Z.of_nat a)),
             (Z.leb_spec (Z.of_nat (S a)) x), (Z.ltb_spec x (Z.of_nat (a + S n))),
             (Z.leb_spec (Z.of_nat a) x); simpl; lia.
Qed.

(** Each slot inside the grid is one of its 168 cells, counted once. *)
Lemma cells_indicator (d h w : Z) :
  zsum (map (fun c => if (d =? fst c) && (h =? snd c) then w else 0) cells) =
  if (0 <=? d) && (d <=? 6) && (0 <=? h) && (h <=? 23) then w else 0.
Proof.
  unfold cells; rewrite zsum_list_prod; cbn beta iota.
  rewrite (map_ext _ (fun a => if d =? a then
             zsum (map (fun b => if h =? b then w else 0) hours24) else 0)).
  - unfold days7, hours24; rewrite zsum_seq_indicator, zsum_seq_indicator; simpl.
    destruct (Z.leb_spec 0 d), (Z.ltb_spec d 7), (Z.leb_spec d 6),
             (Z.leb_spec 0 h), (Z.ltb_spec h 24), (Z.leb_spec h 23);
      simpl; try reflexivity; lia.
  - intro a; cbn [fst snd]; destruct (d =? a); [reflexivity|]; cbn [andb]; apply zsum_zero.
Qed.

Lemma timing_fold_slot publish (vs : list Row) (g : Grid) d h :
  slot_count (fold_left (timing_step publish) vs g d h) =
    slot_count (g d h) + Z.of_nat (List.length (filter (slot_is publish (d, h)) vs)) /\
  slot_totalViews (fold_left (timing_step publish) vs g d h) =
    slot_totalViews (g d h) + zsum (map views (filter (slot_is publish (d, h)) vs)).
Proof.
  revert g; induction vs as [|v vs IH]; intro g; simpl.
  - unfold zsum; simpl; split; lia.
  - destruct (IH (timing_step publish g v)) as [H1 H2]; rewrite H1, H2; clear H1 H2.
    unfold timing_step, slot_is; destruct (slot_of publish v) as [[d' h']|]; simpl.
    + rewrite (Z.eqb_sym d' d), (Z.eqb_sym h' h).
      destruct ((d =? d') && (h =? h')); simpl; [|split; reflexivity].
      unfold zsum; cbn [map fold_right List.length]; split; lia.
    + split; reflexivity.
Qed.

Lemma timing_grid_slot publish (vs : list Row) d h :
  slot_count (timing_grid publish vs d h) =
    Z.of_nat (List.length (filter (slot_is publish (d, h)) vs)) /\
  slot_totalViews (timing_grid publish vs d h) =
    zsum (map views (filter (slot_is publish (d, h)) vs)).
Proof.
  unfold timing_grid; destruct (timing_fold_slot publish vs (fun _ _ => empty_slot) d h).
  split; assumption.
Qed.

Lemma grid_totals_acc (g : Grid) (l : list (Z * Z)) (tv tc : Z) :
  fold_left (fun '(tv, tc) '(d, h) =>
    let s := g d h in
    if 0 <? slot_count s then (tv + slot_totalViews s, tc + slot_count s) else (tv, tc))
    l (tv, tc) =
  (tv + zsum (map (fun '(d, h) => if 0 <? slot_count (g d h)
                                  then slot_totalViews (g d h) else 0) l),
   tc + zsum (map (fun '(d, h) => if 0 <? slot_count (g d h)
                                  then slot_count (g d h) else 0) l)).
Proof.
  revert tv tc; induction l as [|[d h] l IH]; intros tv tc; simpl.
  - unfold zsum; simpl; f_equal; lia.
  - destruct (0 <? slot_count (g d h)); rewrite IH; unfold zsum; simpl; f_equal; lia.
Qed.

Lemma slot_views_total publish (vs : list Row) :
  zsum (map (fun c => zsum (map views (filter (slot_is publish c) vs))) cells) =
  zsum (map views (filter (has_slot publish) vs)).
Proof.
  rewrite (map_ext _ _ (fun c => zsum_filter (slot_is publish c) views vs)).
  rewrite (zsum_swap (fun v c => if slot_is publish c v then views v else 0)).
  rewrite zsum_filter; f_equal; apply map_ext; intro v.
  unfold slot_is, has_slot, slot_of.
  destruct (get_field v "publish_time") as [pt|]; [|apply zsum_zero].
  destruct (String.eqb pt ""); [apply zsum_zero|].
  destruct (publish pt) as [[d h]|]; [|apply zsum_zero].
  destruct ((0 <=? d) && (d <=? 6) && (0 <=? h) && (h <=? 23)) eqn:E;
    [|apply zsum_zero].
  rewrite cells_indicator, E; reflexivity.
Qed.

Lemma slot_count_total publish (vs : list Row) :
  zsum (map (fun c => Z.of_nat (List.length (filter (slot_is publish c) vs))) cells) =
  Z.of_nat (List.length (filter (has_slot publish) vs)).
Proof.
  rewrite (map_ext _ _ (fun c => count_as_zsum (slot_is publish c) vs)).
  rewrite (zsum_swap (fun v c => if slot_is publish c v then 1 else 0)).
  rewrite count_as_zsum; f_equal; apply map_ext; intro v.
  unfold slot_is, has_slot, slot_of.
  destruct (get_field v "publish_time") as [pt|]; [|apply zsum_zero].
  destruct (String.eqb pt ""); [apply zsum_zero|].
  destruct (publish pt) as [[d h]|]; [|apply zsum_zero].
  destruct ((0 <=? d) && (d <=? 6) && (0 <=? h) && (h <=? 23)) eqn:E;
    [|apply zsum_zero].
  rewrite cells_indicator, E; reflexivity.
Qed.

Lemma timing_totals publish (vs : list Row) :
  grid_totals (timing_grid publish vs) =
  (zsum (map views (filter (has_slot publish) vs)),
   Z.of_nat (List.length (filter (has_slot publish) vs))).
Proof.
  unfold grid_totals; rewrite grid_totals_acc, <- slot_views_total, <- slot_count_total.
  rewrite !Z.add_0_l; f_equal; apply f_equal; apply map_ext; intros [d h];
    destruct (timing_grid_slot publish vs d h) as [Hc Hv]; rewrite Hc; try rewrite Hv;
    destruct (Z.ltb_spec 0 (Z.of_nat (List.length (filter (slot_is publish (d, h)) vs))))
      as [|Hle]; try reflexivity.
  - replace (filter (slot_is publish (d, h)) vs) with (@nil Row); [reflexivity|].
    symmetry; apply length_zero_iff_nil; lia.
  - lia.
Qed.

Lemma zsum_nonneg (l : list Z) : Forall (fun x => 0 <= x) l -> 0 <= zsum l.
Proof. unfold zsum; induction 1; simpl; lia. Qed.

Lemma rate_le_100 (b : bool) (x : Q) : ((if b then Qmin 100 x else 0) <= 100)%Q.
Proof. destruct b; [apply Q.le_min_l|discriminate]. Qed.

(** C7: [getPublishingTimingData] returns the 168 cells of the week grid in
    order; a cell counts the videos whose publish time falls in it (videos
    with a missing or unusable time are skipped), its [successRate] is
    [min(100, 100 x avgViews / overallAvgViews)] when the cell has videos
    and the overall average is positive, and 0 otherwise, where the
    overall average is taken over the videos that were not skipped; the
    rate is at most 100, and at least 0 when no video has negative views. *)
Theorem getPublishingTimingData_spec (publish : string -> option (Z * Z))
    (vd : VideoData) (selectedCountry : string) :
  let videos := timing_videos vd selectedCountry in
  let valid := filter (has_slot publish) videos in
  let overallAvgViews :=
    if 0 <? Z.of_nat (List.length valid)
    then (inject_Z (zsum (map views valid)) / inject_Z (Z.of_nat (List.length valid)))%Q
    else 0%Q in
  let out := getPublishingTimingData publish vd selectedCountry in
  map (fun e => (te_day e, te_hour e)) out = cells /\
  Forall (fun e =>
    let inCell := filter (slot_is publish (te_day e, te_hour e)) videos in
    te_count e = Z.of_nat (List.length inCell) /\
    te_totalViews e = zsum (map views inCell) /\
    te_avgViews e = (if 0 <? te_count e
                     then inject_Z (te_totalViews e) / inject_Z (te_count e) else 0)%Q /\
    te_successRate e = (if (0 <? te_count e) && negb (Qle_bool overallAvgViews 0)
                        then Qmin 100 (te_avgViews e / overallAvgViews * 100)
                        else 0)%Q /\
    (te_successRate e <= 100)%Q /\
    (Forall (fun v => 0 <= views v) videos -> (0 <= te_successRate e)%Q)) out.
Proof.
  intros videos valid overall out.
  assert (Hout : out = map (timing_entry (timing_grid publish videos) overall) cells).
  { unfold out, getPublishingTimingData; fold videos.
    rewrite timing_totals; reflexivity. }
  rewrite Hout; split.
  - rewrite map_map; erewrite map_ext; [apply map_id|]; intros [d h]; reflexivity.
  - apply Forall_forall; intros e He; apply in_map_iff in He as [[d h] [<- _]].
    destruct (timing_grid_slot publish videos d h) as [Hc Hv].
    unfold timing_entry; simpl; rewrite Hc, Hv.
    split; [reflexivity|split; [reflexivity|split; [reflexivity|split; [reflexivity|]]]].
    split; [apply rate_le_100|].
    intro Hnn.
    destruct (0 <? Z.of_nat (List.length (filter (slot_is publish (d, h)) videos))) eqn:Ec;
      [|apply Qle_refl].
    destruct (Qle_bool overall 0) eqn:Eo; [apply Qle_refl|]; simpl.
    assert (Hpos : (0 < overall)%Q).
    { apply Qnot_le_lt; intro Hle; apply Qle_bool_iff in Hle; congruence. }
    assert (Hsum : 0 <= zsum (map views (filter (slot_is publish (d, h)) videos))).
    { apply zsum_nonneg, Forall_map, Forall_forall; intros v Hv'.
      apply filter_In in Hv' as [Hv' _]; rewrite Forall_forall in Hnn; auto. }
    apply Z.ltb_lt in Ec.
    apply Q.min_glb; [discriminate|].
    apply Qmult_le_0_compat; [|discriminate].
    apply Qle_shift_div_l; [exact Hpos|]; rewrite Qmult_0_l.
    apply Qle_shift_div_l; [unfold Qlt; simpl; lia|]; rewrite Qmult_0_l.
    unfold Qle; simpl; lia.
Qed.

Lemma getPublishingTimingData_spec_witness :
  Forall (fun v => 0 <= views v) (timing_videos timing_data_ok "US") /\
  Forall (fun e => 0 <= te_successRate e <= 100)%Q
    (getPublishingTimingData utc_iso_publish timing_data_ok "US").
Proof.
  assert (Hnn : Forall (fun v => 0 <= views v) (timing_videos timing_data_ok "US"))
    by (vm_compute; repeat constructor; discriminate).
  split; [exact Hnn|].
  destruct (getPublishingTimingData_spec utc_iso_publish timing_data_ok "US") as [_ H].
  refine (Forall_impl _ _ H); intros e [_ [_ [_ [_ [Hle Hge]]]]].
  split; [exact (Hge Hnn)|exact Hle].
Defined.

(** C7 (counterexample): a video with views -5, alone in its slot next to
    one with views 20 in another slot, gives its slot the success rate
    100 x -5 / 7.5, about -66.7, outside [0, 100]. *)
Lemma getPublishingTimingData_negative_rate :
  ~ (forall publish vd selectedCountry,
       Forall (fun e => 0 <= te_successRate e <= 100)%Q
         (getPublishingTimingData publish vd selectedCountry)).
Proof.
  intro H; specialize (H utc_iso_publish timing_data "US").
  rewrite Forall_forall in H.
  set (out := getPublishingTimingData utc_iso_publish timing_data "US") in H.
  assert (Hn : (41 < List.length out)%nat) by (apply Nat.ltb_lt; vm_compute; reflexivity).
  destruct (H _ (nth_In out (timing_entry (fun _ _ => empty_slot) 0 (0, 0)) Hn)) as [H0 _].
  vm_compute in H0; apply H0; reflexivity.
Qed.

(* ------------------------------------------------------------------ *)
(** ** Tag cleaning *)

(** C8: the tag cleaning of [getTagEvolutionData] and [getTagRacingData]
    (maximum length 30) turns the tags gaming, NONE, [n/a], x and a
    55-character tag into the single tag gaming; in general it keeps at
    most 8 of the normalized (unquoted, trimmed, lowercased) tokens, each
    of length 3 to 29 and neither a none pattern, a bracketed none pattern
    nor a tag with none as a word. *)
Theorem clean_tags_timeline_spec :
  clean_tags_timeline
    (String.concat "|" ["gaming"; "NONE"; "[n/a]"; "x";
                        "thisistoolongtobevalidasatagbecauseitexceedsthirtychars"])
    = ["gaming"] /\
  (forall tags : string,
     incl (clean_tags_timeline tags) (map normalize_tag (split "|"%char tags)) /\
     (List.length (clean_tags_timeline tags) <= 8)%nat /\
     Forall (fun t =>
       (3 <= String.length t < 30)%nat /\
       is_none_pattern t = false /\
       (String.prefix "[" t && ends_with "]" t && is_none_pattern (slice_inner t)) = false /\
       none_word t = false) (clean_tags_timeline tags)).
Proof.
  split; [vm_compute; reflexivity|].
  intro tags; unfold clean_tags_timeline; split; [|split].
  - intros t Ht; apply in_firstn_in, filter_In in Ht as [Ht _]; exact Ht.
  - rewrite length_firstn; lia.
  - apply Forall_forall; intros t Ht; apply in_firstn_in, filter_In in Ht as [_ Hk].
    unfold keep_tag_timeline, keep_tag_base in Hk.
    destruct (String.eqb t "" || Nat.leb (String.length t) 2
              || Nat.leb 30 (String.length t)) eqn:E1; [discriminate|].
    apply orb_false_iff in E1 as [E1 E3]; apply orb_false_iff in E1 as [_ E2].
    apply Nat.leb_gt in E2; apply Nat.leb_gt in E3.
    destruct (is_none_pattern t); [discriminate|].
    destruct (String.prefix "[" t && ends_with "]" t && is_none_pattern (slice_inner t));
      [discriminate|].
    destruct (none_word t); [discriminate|].
    repeat split; lia.
Qed.

Lemma clean_tags_timeline_spec_witness :
  List.length (clean_tags_timeline "music|[none]|none of these|Live Concert") = 2%nat /\
  Forall (fun t => (3 <= String.length t < 30)%nat)
    (clean_tags_timeline "music|[none]|none of these|Live Concert").
Proof.
  destruct clean_tags_timeline_spec as [_ H].
  destruct (H "music|[none]|none of these|Live Concert") as [_ [_ Hf]].
  split; [vm_compute; reflexivity|].
  refine (Forall_impl _ _ Hf); intros t [Hl _]; exact Hl.
Defined.

(* ------------------------------------------------------------------ *)
(** ** [getTagFlowData] *)

Section SortedSort.
Context {A : Type} (before : A -> A -> bool)
        (Hasym : forall x y, before x y = true -> before y x = false).

Lemma insert_by_sorted x l :
  Sorted (fun a b => before b a = false) l ->
  Sorted (fun a b => before b a = false) (insert_by before x l).
Proof.
  induction 1 as [|y l Hs IH Hhd]; simpl; [repeat constructor|].
  destruct (before x y) eqn:E.
  - constructor; [constructor; assumption|constructor; apply Hasym; exact E].
  - constructor; [exact IH|].
    destruct l as [|z l]; simpl; [constructor; exact E|].
    destruct (before x z); constructor; [exact E|inversion Hhd; assumption].
Qed.

Lemma sort_by_sorted l : Sorted (fun a b => before b a = false) (sort_by before l).
Proof.
  unfold sort_by.
  assert (H : forall acc, Sorted (fun a b => before b a = false) acc ->
    Sorted (fun a b => before b a = false)
      (fold_left (fun acc x => insert_by before x acc) l acc)).
  { induction l as [|x l IH]; intros acc Hacc; simpl; [exact Hacc|].
    apply IH, insert_by_sorted, Hacc. }
  apply H; constructor.
Qed.
End SortedSort.

Lemma Sorted_impl_rel {A} (R1 R2 : A -> A -> Prop) l :
  (forall a b, R1 a b -> R2 a b) -> Sorted R1 l -> Sorted R2 l.
Proof.
  intros HR; induction 1 as [|x l Hs IH Hhd]; constructor; [exact IH|].
  destruct Hhd; constructor; auto.
Qed.

Lemma Sorted_firstn {A} (R : A -> A -> Prop) n l : Sorted R l -> Sorted R (firstn n l).
Proof.
  revert n; induction l as [|x l IH]; intros n H; destruct n; simpl; try constructor.
  - apply IH; inversion H; assumption.
  - inversion H as [|? ? Hs Hhd]; subst.
    destruct l as [|y l], n; simpl; constructor; inversion Hhd; assumption.
Qed.

Lemma Sorted_map_rel {A B} (R : B -> B -> Prop) (f : A -> B) l :
  Sorted (fun a b => R (f a) (f b)) l -> Sorted R (map f l).
Proof.
  induction 1 as [|x l Hs IH Hhd]; simpl; constructor; [exact IH|].
  destruct Hhd; simpl; constructor; assumption.
Qed.

Lemma StronglySorted_app_rel {A} (R : A -> A -> Prop) l1 l2 a b :
  StronglySorted R (app l1 l2) -> In a l1 -> In b l2 -> R a b.
Proof.
  induction l1 as [|x l1 IH]; intros H Ha Hb; [destruct Ha|].
  inversion H as [|? ? Hs Hall]; subst.
  destruct Ha as [->|Ha]; [|exact (IH Hs Ha Hb)].
  rewrite Forall_forall in Hall; apply Hall, in_or_app; right; exact Hb.
Qed.


Lemma filter_partition_perm {A} (p : A -> bool) (l : list A) :
  Permutation (app (filter p l) (filter (fun x => negb (p x)) l)) l.
Proof.
  induction l as [|x l IH]; simpl; [reflexivity|].
  destruct (p x); simpl; [constructor; exact IH|].
  rewrite <- Permutation_middle; constructor; exact IH.
Qed.

Lemma object_entries_perm {A} (m : list (string * A)) : Permutation (object_entries m) m.
Proof.
  unfold object_entries.
  eapply Permutation_trans; [apply Permutation_app_tail, sort_by_perm|].
  apply (filter_partition_perm (fun q => is_array_index (fst q))).
Qed.



















(* ------------------------------------------------------------------ *)
(** ** [getTagRacingData] *)

Lemma string_before_asym x y : string_before x y = true -> string_before y x = false.
Proof.
  unfold string_before; rewrite (String.compare_antisym y x).
  destruct (String.compare x y); simpl; congruence.
Qed.

Lemma racing_periods_sorted tz vd filterType selectedCountry :
  let R := getTagRacingData tz vd filterType selectedCountry in
  Sorted string_le (rc_periods R) /\ map fst (rc_racingData R) = rc_periods R.
Proof.
  unfold getTagRacingData.
  destruct (fold_left (racing_step tz) (timing_videos vd selectedCountry) ([], []))
    as [periods tpd].
  destruct (racing_preset filterType) as [tagLimit minOccurrences]; simpl.
  split; [exact (sort_by_sorted string_before string_before_asym periods)|].
  rewrite map_map; apply map_id.
Qed.

Lemma week_label_fixed_offset (c day : Z) :
  week_label (fun _ => c) (JDate day) =
  let '(y, _, _) := civil_from_days day in
  match js_new_date (Some y) (Some 0) (Some 1) with
  | JDate day0 => ("Week " ++ Z_to_string ((day - day0) / 7 + 1))%string
  | JInvalid => "Week NaN"
  end.
Proof.
  unfold week_label, getTime, getFullYear; cbv beta.
  destruct (civil_from_days day) as [[y m] d].
  destruct (js_new_date (Some y) (Some 0) (Some 1)) as [day0|]; [|reflexivity].
  do 3 f_equal.
  replace (day * ms_per_day - c - (day0 * ms_per_day - c)) with ((day - day0) * ms_per_day)
    by ring.
  apply Z.div_mul_cancel_r; unfold ms_per_day; lia.
Qed.

(** C10: the periods of [getTagRacingData] are sorted as strings, and
    [racingData] follows them, so Week 10 comes before Week 2; with a time
    zone of fixed offset the week of a date is the floor of its days since
    January 1 over 7, plus 1; in America/New_York the date 18.12.03
    (2018-03-12, 70 days after January 1) lands in Week 10 instead of
    Week 11, since the local midnights are an hour less than 70 days
    apart across the daylight-saving change. *)
Theorem getTagRacingData_week_dst :
  (forall tz vd filterType selectedCountry,
     let R := getTagRacingData tz vd filterType selectedCountry in
     Sorted string_le (rc_periods R) /\ map fst (rc_racingData R) = rc_periods R) /\
  string_le "Week 10" "Week 2" /\ ~ string_le "Week 2" "Week 10" /\
  (forall c day, week_label (fun _ => c) (JDate day) =
     let '(y, _, _) := civil_from_days day in
     match js_new_date (Some y) (Some 0) (Some 1) with
     | JDate day0 => ("Week " ++ Z_to_string ((day - day0) / 7 + 1))%string
     | JInvalid => "Week NaN"
     end) /\
  parseTrendingDate "18.12.03" = Some (JDate (days_from_civil 2018 3 12)) /\
  days_from_civil 2018 3 12 - days_from_civil 2018 1 1 = 70 /\
  rc_periods (getTagRacingData (fun _ => 0) racing_data "overview" "global") =
    ["Week 1"; "Week 11"; "Week 6"] /\
  rc_periods (getTagRacingData new_york_offset racing_data "overview" "global") =
    ["Week 1"; "Week 10"; "Week 6"].
Proof.
  split; [exact racing_periods_sorted|].
  split; [reflexivity|].
  split; [intro H; vm_compute in H; discriminate H|].
  split; [exact week_label_fixed_offset|].
  repeat split; vm_compute; reflexivity.
Qed.

(* ================================================================== *)
(** * Further properties of the code *)

(* ------------------------------------------------------------------ *)
(** ** [parseCSVLine] and [parseCSV] *)

Lemma string_app_assoc (a b c : string) : ((a ++ b) ++ c)%string = (a ++ (b ++ c))%string.
Proof. induction a as [|x a IH]; simpl; [reflexivity|now rewrite IH]. Qed.

Lemma string_app_nil_r (a : string) : (a ++ EmptyString)%string = a.
Proof. induction a as [|x a IH]; simpl; [reflexivity|now rewrite IH]. Qed.

Lemma char_in_app c a b : char_in c (a ++ b) = char_in c a || char_in c b.
Proof. induction a as [|x a IH]; simpl; [reflexivity|rewrite IH; apply orb_assoc]. Qed.

Lemma parseCSVLine_chunk f s cur q :
  char_in (chr 34) f = false -> (q = true \/ char_in ","%char f = false) ->
  parseCSVLine_aux (f ++ s) cur q = parseCSVLine_aux s (cur ++ f) q.
Proof.
  revert cur; induction f as [|c f IH]; intros cur Hq Hc; simpl.
  - now rewrite string_app_nil_r.
  - simpl in Hq; apply orb_false_iff in Hq as [Hq1 Hq2]; rewrite Hq1.
    replace (Ascii.eqb c ","%char && negb q) with false.
    + rewrite IH; [now rewrite string_app_assoc|exact Hq2|].
      destruct Hc as [->|Hc]; [now left|right; simpl in Hc; apply orb_false_iff in Hc; tauto].
    + destruct Hc as [->|Hc]; [now rewrite andb_false_r|].
      simpl in Hc; apply orb_false_iff in Hc as [-> _]; reflexivity.
Qed.

Lemma parseCSVLine_join_aux f fs :
  Forall (fun g => char_in (chr 34) g = false /\ char_in ","%char g = false) (f :: fs) ->
  parseCSVLine_aux (String.concat "," (f :: fs)) EmptyString false = f :: fs.
Proof.
  revert f; induction fs as [|g fs IH]; intros f Hall; inversion Hall as [|? ? [Hf1 Hf2] Hrest]; subst.
  - simpl; rewrite <- (string_app_nil_r f) at 1.
    rewrite parseCSVLine_chunk by auto; simpl; reflexivity.
  - change (String.concat "," (f :: g :: fs)) with (f ++ ("," ++ String.concat "," (g :: fs)))%string.
    rewrite parseCSVLine_chunk by auto; simpl.
    f_equal; apply IH; exact Hrest.
Qed.

(** X1: joining a non-empty list of fields with commas, none of which
    holds a comma or a double quote, and parsing the line gives the fields
    back. *)
Theorem parseCSVLine_join (fs : list string) :
  fs <> [] ->
  Forall (fun f => char_in (chr 34) f = false /\ char_in ","%char f = false) fs ->
  parseCSVLine (String.concat "," fs) = fs.
Proof.
  destruct fs as [|f fs]; [congruence|]; intros _; apply parseCSVLine_join_aux.
Qed.

Lemma parseCSVLine_join_witness :
  ["a"; "b c"; ""] <> [] /\
  parseCSVLine (String.concat "," ["a"; "b c"; ""]) = ["a"; "b c"; ""].
Proof.
  split; [discriminate|].
  apply parseCSVLine_join; [discriminate|].
  repeat constructor.
Defined.

Lemma parseCSVLine_quoted_aux f fs :
  Forall (fun g => char_in (chr 34) g = false) (f :: fs) ->
  parseCSVLine_aux (String.concat "," (map quote_field (f :: fs))) EmptyString false = f :: fs.
Proof.
  revert f; induction fs as [|g fs IH]; intros f Hall; inversion Hall as [|? ? Hf Hrest]; subst.
  - simpl; unfold quote_field; simpl.
    replace (Ascii.eqb (chr 34) (chr 34)) with true by reflexivity; simpl.
    rewrite parseCSVLine_chunk by auto; simpl; reflexivity.
  - change (String.concat "," (map quote_field (f :: g :: fs)))
      with (quote_field f ++ ("," ++ String.concat "," (map quote_field (g :: fs))))%string.
    unfold quote_field at 1; simpl.
    replace (Ascii.eqb (chr 34) (chr 34)) with true by reflexivity; simpl.
    rewrite string_app_assoc; simpl.
    rewrite parseCSVLine_chunk by auto; simpl.
    f_equal; apply IH; exact Hrest.
Qed.

(** X2: joining a non-empty list of fields, each wrapped in double quotes
    and none holding a double quote, with commas and parsing the line gives
    the fields back, commas inside the quotes included. *)
Theorem parseCSVLine_join_quoted (fs : list string) :
  fs <> [] -> Forall (fun f => char_in (chr 34) f = false) fs ->
  parseCSVLine (String.concat "," (map quote_field fs)) = fs.
Proof.
  destruct fs as [|f fs]; [congruence|]; intros _; apply parseCSVLine_quoted_aux.
Qed.

Lemma parseCSVLine_join_quoted_witness :
  ["a,b"; " c "] <> [] /\
  parseCSVLine (String.concat "," (map quote_field ["a,b"; " c "])) = ["a,b"; " c "].
Proof.
  split; [discriminate|].
  apply parseCSVLine_join_quoted; [discriminate|].
  repeat constructor.
Defined.

Lemma parseCSVLine_aux_no_quote s cur q :
  char_in (chr 34) cur = false ->
  Forall (fun f => char_in (chr 34) f = false) (parseCSVLine_aux s cur q).
Proof.
  revert cur q; induction s as [|c s IH]; intros cur q Hcur; simpl.
  - constructor; [exact Hcur|constructor].
  - destruct (Ascii.eqb c (chr 34)) eqn:Ec; [apply IH; exact Hcur|].
    destruct (Ascii.eqb c ","%char && negb q).
    + constructor; [exact Hcur|apply IH; reflexivity].
    + apply IH; rewrite char_in_app, Hcur; simpl; rewrite Ec; reflexivity.
Qed.

(** X3: no field returned by [parseCSVLine] contains a double-quote
    character: every quote only toggles the quoted state. *)
Theorem parseCSVLine_no_quote (line : string) :
  Forall (fun f => char_in (chr 34) f = false) (parseCSVLine line).
Proof. apply parseCSVLine_aux_no_quote; reflexivity. Qed.

(** X4: every row returned by [parseCSV] has [country] equal to the
    country argument and a non-empty [category_name] (a missing or empty
    title gives "Unknown"). *)
Theorem parseCSV_rows_tagged (cats : Categories) (text ctry : string) (r : Row) :
  In r (parseCSV cats text ctry) -> country r = ctry /\ category_name r <> "".
Proof.
  intro Hin; apply parseCSV_make_row in Hin as [headers [values ->]]; simpl.
  split; [reflexivity|].
  unfold category_name_of.
  destruct (assoc_last cats ctry) as [m|]; [|discriminate].
  destruct (assoc_last m _) as [t|]; [|discriminate].
  destruct (String.eqb_spec t "") as [_|Hne]; [discriminate|exact Hne].
Qed.

Lemma parseCSV_rows_tagged_witness :
  In (make_row heat_cats "US" ["views"; "category_id"] ["5"; "10"]) heat_us /\
  country (make_row heat_cats "US" ["views"; "category_id"] ["5"; "10"]) = "US" /\
  category_name (make_row heat_cats "US" ["views"; "category_id"] ["5"; "10"]) <> "".
Proof.
  assert (H : In (make_row heat_cats "US" ["views"; "category_id"] ["5"; "10"]) heat_us)
    by (vm_compute; left; reflexivity).
  split; [exact H|].
  apply (parseCSV_rows_tagged heat_cats
    (lines_text ["views,category_id"; "5,10"; "7,20"; "9,10"]) "US"); exact H.
Defined.


(* ------------------------------------------------------------------ *)
(** ** Grouping folds and sums *)


Lemma group_fold_lookup {A} key (init : Row -> A) upd rows m x :
  assoc_first (group_fold key init upd rows m) x =
  group_value init upd (assoc_first m x) (filter (fun v => String.eqb (key v) x) rows).
Proof.
  unfold group_fold; revert m; induction rows as [|r rows IH]; intro m; simpl.
  - destruct (assoc_first m x); reflexivity.
  - rewrite IH, assoc_first_obj_upd.
    destruct (String.eqb_spec (key r) x) as [<-|Hne]; simpl; [|reflexivity].
    destruct (assoc_first m (key r)); reflexivity.
Qed.

Lemma group_fold_nodup {A} key (init : Row -> A) upd rows m :
  NoDup (map fst m) -> NoDup (map fst (group_fold key init upd rows m)).
Proof.
  unfold group_fold; intro H; apply fold_left_inv; [exact H|].
  intros a v Ha; apply obj_upd_nodup, Ha.
Qed.

Lemma group_value_none {A} (init : Row -> A) upd rows :
  group_value init upd None rows = None <-> rows = [].
Proof. destruct rows; simpl; split; congruence. Qed.

Lemma fold_left_select {A} (sel : Row -> bool) (g : list (string * A) -> Row -> list (string * A))
    rows m :
  fold_left (fun m v => if sel v then g m v else m) rows m = fold_left g (filter sel rows) m.
Proof.
  revert m; induction rows as [|r rows IH]; intro m; simpl; [reflexivity|].
  destruct (sel r); simpl; apply IH.
Qed.

Lemma filter_filter {A} (p q : A -> bool) l :
  filter p (filter q l) = filter (fun x => q x && p x) l.
Proof.
  induction l as [|x l IH]; simpl; [reflexivity|].
  destruct (q x); simpl; [destruct (p x); simpl; rewrite IH; reflexivity|exact IH].
Qed.

Lemma sum_by_acc (f : Row -> Z) rows a :
  fold_left (fun sum v => sum + f v) rows a = a + zsum (map f rows).
Proof.
  unfold zsum; revert a; induction rows as [|r rows IH]; intro a; simpl; [lia|].
  rewrite IH; lia.
Qed.

Lemma sum_by_zsum (f : Row -> Z) rows : sum_by f rows = zsum (map f rows).
Proof. unfold sum_by; rewrite sum_by_acc; lia. Qed.

Lemma find_app_or {A} (p : A -> bool) l1 l2 :
  find p (app l1 l2) = match find p l1 with Some y => Some y | None => find p l2 end.
Proof. induction l1 as [|x l1 IH]; simpl; [reflexivity|destruct (p x); [reflexivity|exact IH]]. Qed.

Lemma assoc_last_cons {A} k (v : A) m x :
  assoc_last ((k, v) :: m) x =
  match assoc_last m x with Some y => Some y | None => if String.eqb k x then Some v else None end.
Proof.
  unfold assoc_last; simpl; rewrite find_app_or.
  destruct (find _ (rev m)) as [[]|]; simpl; [reflexivity|].
  destruct (String.eqb k x); reflexivity.
Qed.

Lemma assoc_last_absent {A} (m : list (string * A)) x :
  ~ In x (map fst m) -> assoc_last m x = None.
Proof.
  intro H; unfold assoc_last.
  destruct (find _ (rev m)) as [[k v]|] eqn:E; [|reflexivity].
  apply find_some in E as [Hin Hk]; apply String.eqb_eq in Hk; simpl in Hk; subst k.
  exfalso; apply H, in_map_iff; exists (x, v); split; [reflexivity|now apply in_rev].
Qed.


(* ------------------------------------------------------------------ *)
(** ** Category distribution and engagement *)

Lemma category_dist_fold rows : category_dist rows = count_fold (fun _ => true) rows [].
Proof. reflexivity. Qed.



Lemma count_concat (p : Row -> bool) (ls : list (list Row)) :
  Z.of_nat (List.length (filter p (List.concat ls))) =
  zsum (map (fun l => Z.of_nat (List.length (filter p l))) ls).
Proof.
  unfold zsum; induction ls as [|l ls IH]; simpl; [reflexivity|].
  rewrite filter_app, length_app, Nat2Z.inj_add, IH; reflexivity.
Qed.

(** X6: when the loaded countries are distinct and none is named "all",
    the global count of a category whose name is not a property of
    [Object.prototype] is the sum over the loaded countries of its
    per-country counts. *)
Theorem getCategoryDistribution_by_countries (vd : VideoData) (k : string) :
  NoDup (map fst vd) -> ~ In "all" (map fst vd) -> is_proto_key k = false ->
  count_or0 (getCategoryDistribution vd) k =
  CNum (zsum (map (fun c => match getCategoryDistributionByCountry vd c with
                            | Some R => num_of (count_or0 R k)
                            | None => 0
                            end) (map fst vd))).
Proof.
  intros Hnd Hall Hk.
  unfold getCategoryDistribution; rewrite category_dist_fold, count_or0_fold_num by exact Hk.
  f_equal; unfold all_videos; rewrite count_concat.
  rewrite !map_map; f_equal; apply map_ext_in; intros [c rows] Hin; simpl.
  unfold getCategoryDistributionByCountry.
  destruct (String.eqb_spec c "all") as [->|_].
  - exfalso; apply Hall, in_map_iff; exists ("all", rows); split; [reflexivity|exact Hin].
  - rewrite (assoc_last_nodup vd c rows Hnd Hin), category_dist_fold.
    rewrite count_or0_fold_num by exact Hk; reflexivity.
Qed.

Lemma getCategoryDistribution_by_countries_witness :
  NoDup (map fst heat_data) /\ ~ In "all" (map fst heat_data) /\ is_proto_key "Music" = false /\
  count_or0 (getCategoryDistribution heat_data) "Music" =
  CNum (zsum (map (fun c => match getCategoryDistributionByCountry heat_data c with
                            | Some R => num_of (count_or0 R "Music")
                            | None => 0
                            end) (map fst heat_data))).
Proof.
  assert (H1 : NoDup (map fst heat_data)).
  { simpl; constructor; [simpl; intros [H|[]]; discriminate|constructor; [intros []|constructor]]. }
  assert (H2 : ~ In "all" (map fst heat_data)) by (simpl; intros [H|[H|[]]]; discriminate).
  assert (H3 : is_proto_key "Music" = false) by reflexivity.
  split; [exact H1|split; [exact H2|split; [exact H3|]]].
  apply getCategoryDistribution_by_countries; assumption.
Defined.

Lemma filter_keep_all {A} (p : A -> bool) l : (forall x, In x l -> p x = true) -> filter p l = l.
Proof.
  induction l as [|x l IH]; intro H; simpl; [reflexivity|].
  rewrite (H x (or_introl eq_refl)), IH; [reflexivity|intros y Hy; apply H; right; exact Hy].
Qed.

Lemma filter_drop_all {A} (p : A -> bool) l : (forall x, In x l -> p x = false) -> filter p l = [].
Proof.
  induction l as [|x l IH]; intro H; simpl; [reflexivity|].
  rewrite (H x (or_introl eq_refl)), IH; [reflexivity|intros y Hy; apply H; right; exact Hy].
Qed.

Lemma filter_country_all vd c :
  tagged_data vd ->
  filter (fun v => String.eqb (country v) c) (all_videos vd) = country_videos vd c.
Proof.
  intros [Hnd Htag]; unfold all_videos, country_videos.
  induction vd as [|[k rows] vd IH]; simpl; [reflexivity|].
  inversion Hnd as [|? ? Hnot Hnd']; subst.
  inversion Htag as [|? ? Hrows Htag']; subst.
  rewrite filter_app, assoc_last_cons, IH by assumption.
  rewrite Forall_forall in Hrows.
  destruct (String.eqb_spec k c) as [<-|Hne].
  - rewrite filter_keep_all by (intros x Hx; rewrite (Hrows x Hx); apply String.eqb_refl).
    rewrite assoc_last_absent by exact Hnot; apply app_nil_r.
  - rewrite filter_drop_all by (intros x Hx; rewrite (Hrows x Hx); apply String.eqb_neq, Hne).
    simpl; destruct (assoc_last vd c); reflexivity.
Qed.

(** X7: on loaded data (one entry per country, rows tagged with their
    country), the engagement of a country over all categories sums the
    likes, dislikes and comments of exactly that country's rows. *)
Theorem getFilteredEngagementMetrics_country (vd : VideoData) (c : string) :
  tagged_data vd -> c <> "all" ->
  getFilteredEngagementMetrics vd c "all" = engagement_of (country_videos vd c).
Proof.
  intros Htd Hc; unfold getFilteredEngagementMetrics.
  apply String.eqb_neq in Hc; rewrite Hc; simpl.
  rewrite filter_country_all by exact Htd; reflexivity.
Qed.

Lemma tagged_heat_data : tagged_data heat_data.
Proof.
  split.
  - simpl; constructor; [simpl; intros [H|[]]; discriminate|constructor; [intros []|constructor]].
  - vm_compute; repeat constructor.
Qed.

Lemma getFilteredEngagementMetrics_country_witness :
  tagged_data heat_data /\ "GB" <> "all" /\
  getFilteredEngagementMetrics heat_data "GB" "all" = engagement_of (country_videos heat_data "GB").
Proof.
  split; [exact tagged_heat_data|split; [discriminate|]].
  apply getFilteredEngagementMetrics_country; [exact tagged_heat_data|discriminate].
Defined.

Lemma engagement_fold rows e :
  fold_left (fun e v => add_engagement v e) rows e =
  {| Likes := Likes e + zsum (map likes rows); Dislikes := Dislikes e + zsum (map dislikes rows);
     Comments := Comments e + zsum (map comment_count rows) |}.
Proof.
  unfold zsum; revert e; induction rows as [|v rows IH]; intro e; simpl.
  - destruct e; simpl; f_equal; lia.
  - rewrite IH; simpl; f_equal; lia.
Qed.

Lemma engagement_group rows :
  group_value (fun _ => zero_engagement) add_engagement None rows =
  match rows with [] => None | _ => Some (engagement_of rows) end.
Proof.
  destruct rows as [|v vs]; simpl; [reflexivity|].
  rewrite engagement_fold; unfold engagement_of; rewrite !sum_by_zsum; simpl.
  f_equal; f_equal; unfold zsum; simpl; lia.
Qed.

Lemma engagement_fold_group rows m :
  fold_left engagement_step rows m =
  group_fold engagement_key (fun _ => zero_engagement) add_engagement
    (filter (fun v => negb (is_proto_key (engagement_key v))) rows) m.
Proof.
  unfold group_fold; revert m; induction rows as [|v rows IH]; intro m; simpl; [reflexivity|].
  unfold engagement_step at 2; destruct (is_proto_key (engagement_key v)); simpl; apply IH.
Qed.

Lemma category_engagement_lookup (vd : VideoData) (c cat : string) :
  NoDup (map fst (getCategoryEngagementByCountry vd c)) /\
  assoc_last (getCategoryEngagementByCountry vd c) cat =
  (if is_proto_key cat then None
   else match filter (fun v => String.eqb (engagement_key v) cat) (vvl_videos vd c) with
        | [] => None
        | l => Some (engagement_of l)
        end).
Proof.
  unfold getCategoryEngagementByCountry; rewrite engagement_fold_group.
  assert (Hnd := group_fold_nodup engagement_key (fun _ => zero_engagement) add_engagement
                   (filter (fun v => negb (is_proto_key (engagement_key v)))
                      (if String.eqb c "all" then all_videos vd else country_videos vd c))
                   [] (NoDup_nil _)).
  split; [exact Hnd|].
  rewrite assoc_last_first by exact Hnd; rewrite group_fold_lookup, filter_filter.
  change (assoc_first [] cat) with (@None Engagement).
  rewrite engagement_group; fold (vvl_videos vd c).
  destruct (is_proto_key cat) eqn:Ep.
  - rewrite filter_drop_all; [reflexivity|].
    intros x _; destruct (String.eqb_spec (engagement_key x) cat) as [->|]; [rewrite Ep|];
      apply andb_false_r || reflexivity.
  - rewrite (filter_ext _ (fun v => String.eqb (engagement_key v) cat));
      [destruct (filter (fun v => String.eqb (engagement_key v) cat) (vvl_videos vd c)); reflexivity|].
    intro x; destruct (String.eqb_spec (engagement_key x) cat) as [->|]; [rewrite Ep|];
      rewrite ?andb_false_r; reflexivity.
Qed.

(** X8: the object returned by [getCategoryEngagementByCountry] has one
    key per category, an empty name counting as "Unknown"; a category's
    entry holds the sums of likes, dislikes and comments of the selected
    rows in it, and a category is absent when no selected row has it or
    when its name is a property of [Object.prototype] such as
    "constructor". *)
Theorem getCategoryEngagementByCountry_spec (vd : VideoData) (c cat : string) :
  NoDup (map fst (getCategoryEngagementByCountry vd c)) /\
  assoc_last (getCategoryEngagementByCountry vd c) cat =
  (if is_proto_key cat then None
   else match filter (fun v => String.eqb (engagement_key v) cat) (vvl_videos vd c) with
        | [] => None
        | l => Some (engagement_of l)
        end).
Proof. exact (category_engagement_lookup vd c cat). Qed.


(* ------------------------------------------------------------------ *)
(** ** [getCategoryEngagementByCountry] and [getTopVideosByViewsFiltered] *)

Lemma country_videos_all vd c v : In v (country_videos vd c) -> In v (all_videos vd).
Proof.
  unfold country_videos, all_videos.
  destruct (assoc_last vd c) as [rows|] eqn:E; [|intros []].
  intro Hv; apply assoc_last_in in E.
  apply in_concat; exists rows; split; [apply (in_map snd _ (c, rows)); exact E|exact Hv].
Qed.

(** X9: on loaded data whose rows all have a category name (as
    [parseCSV] guarantees), the entry of a category in
    [getCategoryEngagementByCountry] for a country equals
    [getFilteredEngagementMetrics] for that country and category, for
    every category of the country other than "all" and the names of
    [Object.prototype] properties. *)
Theorem getCategoryEngagementByCountry_filtered (vd : VideoData) (c cat : string) :
  tagged_data vd -> c <> "all" -> cat <> "all" -> is_proto_key cat = false ->
  Forall (fun v => category_name v <> "") (all_videos vd) ->
  In cat (map category_name (country_videos vd c)) ->
  assoc_last (getCategoryEngagementByCountry vd c) cat =
  Some (getFilteredEngagementMetrics vd c cat).
Proof.
  intros Htd Hc Hcat Hp Hnames Hin.
  rewrite (proj2 (category_engagement_lookup vd c cat)), Hp.
  unfold vvl_videos, getFilteredEngagementMetrics.
  apply String.eqb_neq in Hc; apply String.eqb_neq in Hcat; rewrite Hc, Hcat; simpl.
  rewrite filter_country_all by exact Htd.
  rewrite Forall_forall in Hnames.
  rewrite (filter_ext_in (fun v => String.eqb (engagement_key v) cat)
             (fun v => String.eqb (category_name v) cat)).
  - apply in_map_iff in Hin as [v [Hv Hvin]].
    destruct (filter (fun v => String.eqb (category_name v) cat) (country_videos vd c)) eqn:E.
    + exfalso; assert (Hf : In v (filter (fun v => String.eqb (category_name v) cat)
                                      (country_videos vd c)))
        by (apply filter_In; split; [exact Hvin|apply String.eqb_eq, Hv]).
      rewrite E in Hf; destruct Hf.
    + reflexivity.
  - intros v Hv; unfold engagement_key.
    apply country_videos_all, Hnames in Hv.
    apply String.eqb_neq in Hv; rewrite Hv; reflexivity.
Qed.

Lemma heat_data_named : Forall (fun v => category_name v <> "") (all_videos heat_data).
Proof. vm_compute; repeat constructor; discriminate. Qed.

Lemma getCategoryEngagementByCountry_filtered_witness :
  tagged_data heat_data /\ "US" <> "all" /\ "Music" <> "all" /\
  is_proto_key "Music" = false /\
  Forall (fun v => category_name v <> "") (all_videos heat_data) /\
  In "Music" (map category_name (country_videos heat_data "US")) /\
  assoc_last (getCategoryEngagementByCountry heat_data "US") "Music" =
  Some (getFilteredEngagementMetrics heat_data "US" "Music").
Proof.
  assert (Hin : In "Music" (map category_name (country_videos heat_data "US")))
    by (vm_compute; left; reflexivity).
  split; [exact tagged_heat_data|].
  split; [discriminate|split; [discriminate|split; [reflexivity|]]].
  split; [exact heat_data_named|split; [exact Hin|]].
  apply getCategoryEngagementByCountry_filtered;
    [exact tagged_heat_data|discriminate|discriminate|reflexivity|exact heat_data_named|exact Hin].
Defined.

Lemma js_slice_to_nonneg {A} (e : Z) (l : list A) :
  0 <= e -> js_slice_to e l = firstn (Z.to_nat e) l.
Proof.
  intro He; unfold js_slice_to.
  destruct (Z.ltb_spec e 0) as [|_]; [lia|].
  destruct (Z.min_spec e (Z.of_nat (List.length l))) as [[Hlt ->]|[Hge ->]]; [reflexivity|].
  rewrite Nat2Z.id, firstn_all, firstn_all2; [reflexivity|lia].
Qed.

Lemma in_js_slice_to {A} e (l : list A) x : In x (js_slice_to e l) -> In x l.
Proof. unfold js_slice_to; apply in_firstn_in. Qed.

Lemma by_views_desc_asym x y : by_views_desc x y = true -> by_views_desc y x = false.
Proof. unfold by_views_desc; intro H; apply Z.ltb_lt in H; apply Z.ltb_ge; lia. Qed.

Lemma top_sorted vd c :
  StronglySorted (fun a b => views b <= views a) (sort_by by_views_desc (top_candidates vd c)).
Proof.
  apply Sorted_StronglySorted; [intros x y z; lia|].
  eapply Sorted_impl_rel; [|apply (sort_by_sorted by_views_desc by_views_desc_asym)].
  intros a b H; unfold by_views_desc in H; apply Z.ltb_ge in H; exact H.
Qed.

(** X10: for a non-negative [limit], [getTopVideosByViewsFiltered] shows
    [min(limit, n)] of the [n] videos of the selected country with
    positive views, and every video it leaves out has no more views than
    any video it shows. *)
Theorem getTopVideosByViewsFiltered_top (vd : VideoData) (limit : Z) (c : string) :
  0 <= limit ->
  exists shown rest,
    Permutation (app shown rest) (top_candidates vd c) /\
    getTopVideosByViewsFiltered vd limit c = map top_video shown /\
    List.length shown = Nat.min (Z.to_nat limit) (List.length (top_candidates vd c)) /\
    (forall x y, In x shown -> In y rest -> views y <= views x).
Proof.
  intro Hl.
  set (S := sort_by by_views_desc (top_candidates vd c)).
  exists (firstn (Z.to_nat limit) S), (skipn (Z.to_nat limit) S).
  split; [rewrite firstn_skipn; apply sort_by_perm|].
  split; [unfold getTopVideosByViewsFiltered; rewrite js_slice_to_nonneg by exact Hl; reflexivity|].
  split; [rewrite length_firstn; unfold S; rewrite (Permutation_length (sort_by_perm _ _));
          reflexivity|].
  intros x y Hx Hy.
  apply (StronglySorted_app_rel (fun a b => views b <= views a)
           (firstn (Z.to_nat limit) S) (skipn (Z.to_nat limit) S)); [|exact Hx|exact Hy].
  rewrite firstn_skipn; apply top_sorted.
Qed.

Lemma getTopVideosByViewsFiltered_top_witness :
  0 <= 2 /\
  exists shown rest,
    Permutation (app shown rest) (top_candidates heat_data "all") /\
    getTopVideosByViewsFiltered heat_data 2 "all" = map top_video shown /\
    List.length shown = Nat.min (Z.to_nat 2) (List.length (top_candidates heat_data "all")) /\
    (forall x y, In x shown -> In y rest -> views y <= views x).
Proof.
  split; [lia|]; apply getTopVideosByViewsFiltered_top; lia.
Defined.

(** X11: every video returned by [getTopVideosByViewsFiltered] has
    positive views, belongs to the selected country when one is selected,
    and has [ratio] equal to likes divided by views; the list is in
    non-increasing order of views. *)
Theorem getTopVideosByViewsFiltered_entries (vd : VideoData) (limit : Z) (c : string) :
  Forall (fun t => 0 < tv_views t /\ (c <> "all" -> tv_country t = c) /\
                   tv_ratio t = (inject_Z (tv_likes t) / inject_Z (tv_views t))%Q)
    (getTopVideosByViewsFiltered vd limit c) /\
  Sorted (fun a b => tv_views b <= tv_views a) (getTopVideosByViewsFiltered vd limit c).
Proof.
  unfold getTopVideosByViewsFiltered; split.
  - apply Forall_forall; intros t Ht; apply in_map_iff in Ht as [v [<- Hv]].
    apply in_js_slice_to, (Permutation_in _ (sort_by_perm _ _)) in Hv.
    unfold top_candidates in Hv; apply filter_In in Hv as [Hv Hpos].
    apply Z.ltb_lt in Hpos; simpl.
    split; [exact Hpos|split].
    + intro Hc; apply String.eqb_neq in Hc; rewrite Hc in Hv.
      apply filter_In in Hv as [_ Hv]; apply String.eqb_eq, Hv.
    + apply Z.ltb_lt in Hpos; rewrite Hpos; reflexivity.
  - apply Sorted_map_rel; simpl.
    unfold js_slice_to; apply Sorted_firstn.
    apply StronglySorted_Sorted, top_sorted.
Qed.


(* ------------------------------------------------------------------ *)
(** ** Channels *)

Lemma channel_fold_none rows : fold_left channel_step rows None = None.
Proof. induction rows; simpl; auto. Qed.

Lemma channel_fold rows m :
  fold_left channel_step rows (Some m) =
  if existsb (fun v => is_proto_key (channel_key v)) rows then None
  else Some (group_fold channel_key new_channel add_to_channel rows m).
Proof.
  unfold group_fold; revert m; induction rows as [|v rows IH]; intro m; simpl; [reflexivity|].
  destruct (is_proto_key (channel_key v)); simpl; [apply channel_fold_none|apply IH].
Qed.

Lemma getAllChannels_some vd :
  getAllChannels vd =
  if existsb (fun v => is_proto_key (channel_key v)) (all_videos vd) then None
  else Some (sort_by by_channel_views_desc (map snd (object_entries (channel_group (all_videos vd))))).
Proof.
  unfold getAllChannels, channel_data; rewrite channel_fold.
  destruct (existsb _ _); reflexivity.
Qed.

(** X12: [getAllChannels] throws exactly when some video's channel title
    is the name of a property of [Object.prototype], such as
    "constructor" or "toString". *)
Theorem getAllChannels_throws (vd : VideoData) :
  getAllChannels vd = None <->
  exists v, In v (all_videos vd) /\ is_proto_key (channel_key v) = true.
Proof.
  rewrite getAllChannels_some, <- existsb_exists.
  destruct (existsb _ _); split; congruence.
Qed.

Lemma zsum_perm (l1 l2 : list Z) : Permutation l1 l2 -> zsum l1 = zsum l2.
Proof. unfold zsum; induction 1; simpl; lia. Qed.

Lemma zsum_obj_upd {A} (g : A -> Z) k d f (m : list (string * A)) delta :
  (forall x, g (f x) = g x + delta) -> g d = 0 ->
  zsum (map (fun p => g (snd p)) (obj_upd String.eqb k d f m)) =
  zsum (map (fun p => g (snd p)) m) + delta.
Proof.
  unfold zsum; intros Hf Hd; induction m as [|[k' v] m IH]; simpl.
  - rewrite Hf, Hd; lia.
  - destruct (String.eqb k' k); simpl; [rewrite Hf; lia|rewrite IH; lia].
Qed.

Lemma zsum_group {A} key (init : Row -> A) upd (g : A -> Z) (h : Row -> Z) rows m :
  (forall v x, g (upd v x) = g x + h v) -> (forall v, g (init v) = 0) ->
  zsum (map (fun p => g (snd p)) (group_fold key init upd rows m)) =
  zsum (map (fun p => g (snd p)) m) + zsum (map h rows).
Proof.
  unfold group_fold; intros Hu Hi; revert m; induction rows as [|v rows IH]; intro m; simpl.
  - unfold zsum; simpl; lia.
  - rewrite IH, (zsum_obj_upd g _ _ _ _ (h v)); [|apply Hu|apply Hi].
    unfold zsum; simpl; lia.
Qed.

Lemma zsum_ones {A} (l : list A) : zsum (map (fun _ => 1) l) = Z.of_nat (List.length l).
Proof. unfold zsum; induction l as [|x l IH]; cbn [map fold_right List.length]; [reflexivity|rewrite IH; lia]. Qed.

Lemma channels_perm vd chs :
  getAllChannels vd = Some chs -> Permutation chs (map snd (channel_group (all_videos vd))).
Proof.
  rewrite getAllChannels_some; destruct (existsb _ _); [discriminate|].
  intro H; injection H as <-.
  rewrite sort_by_perm; apply Permutation_map, object_entries_perm.
Qed.

(** X13: when [getAllChannels] returns, the video counts of its channels
    add up to the number of loaded videos and their total views to the
    sum of the views of all loaded videos. *)
Theorem getAllChannels_totals (vd : VideoData) (chs : list Channel) :
  getAllChannels vd = Some chs ->
  zsum (map ch_videoCount chs) = Z.of_nat (List.length (all_videos vd)) /\
  zsum (map ch_totalViews chs) = zsum (map views (all_videos vd)).
Proof.
  intro H; apply channels_perm in H.
  split.
  - rewrite (zsum_perm _ _ (Permutation_map _ H)), map_map.
    unfold channel_group; rewrite (zsum_group _ _ _ ch_videoCount (fun _ => 1));
      [|reflexivity|reflexivity].
    rewrite zsum_ones; unfold zsum; simpl; lia.
  - rewrite (zsum_perm _ _ (Permutation_map _ H)), map_map.
    unfold channel_group; rewrite (zsum_group _ _ _ ch_totalViews views);
      [|reflexivity|reflexivity].
    unfold zsum; simpl; lia.
Qed.

Lemma assoc_first_keys {A} (m : list (string * A)) k :
  In k (map fst m) <-> assoc_first m k <> None.
Proof.
  unfold assoc_first; induction m as [|[k' v] m IH]; simpl; [split; [intros []|congruence]|].
  destruct (String.eqb_spec k' k) as [->|Hne]; simpl.
  - split; [congruence|auto].
  - rewrite <- IH; split; [intros [->|H]; [congruence|exact H]|auto].
Qed.

Lemma group_fold_keys {A} key (init : Row -> A) upd rows k :
  In k (map fst (group_fold key init upd rows [])) <-> exists v, In v rows /\ key v = k.
Proof.
  rewrite assoc_first_keys, group_fold_lookup; change (assoc_first [] k) with (@None A).
  rewrite group_value_none.
  split.
  - intro H; destruct (filter (fun v => String.eqb (key v) k) rows) as [|v vs] eqn:E; [congruence|].
    exists v; assert (Hv : In v (filter (fun v => String.eqb (key v) k) rows))
      by (rewrite E; left; reflexivity).
    apply filter_In in Hv as [Hv Hk]; split; [exact Hv|apply String.eqb_eq, Hk].
  - intros [v [Hv Hk]] E.
    assert (Hf : In v (filter (fun v => String.eqb (key v) k) rows))
      by (apply filter_In; split; [exact Hv|apply String.eqb_eq, Hk]).
    rewrite E in Hf; destruct Hf.
Qed.

Lemma channel_group_names rows :
  Forall (fun p => ch_key (snd p) = fst p) (channel_group rows).
Proof.
  unfold channel_group, group_fold; apply fold_left_inv; [constructor|].
  intros m v Hm; induction m as [|[k' ch] m IH]; simpl.
  - constructor; [reflexivity|constructor].
  - inversion Hm as [|? ? Hkc Hm']; subst.
    destruct (String.eqb_spec k' (channel_key v)); simpl; constructor; auto.
Qed.

Lemma channel_keys_of_group rows :
  map ch_key (map snd (channel_group rows)) = map fst (channel_group rows).
Proof.
  rewrite map_map; apply map_ext_in.
  intros p Hp; pose proof (channel_group_names rows) as H; rewrite Forall_forall in H.
  exact (H p Hp).
Qed.

Lemma by_channel_views_desc_asym x y :
  by_channel_views_desc x y = true -> by_channel_views_desc y x = false.
Proof. unfold by_channel_views_desc; intro H; apply Z.ltb_lt in H; apply Z.ltb_ge; lia. Qed.

Lemma channels_sorted vd chs :
  getAllChannels vd = Some chs -> Sorted (fun a b => ch_totalViews b <= ch_totalViews a) chs.
Proof.
  rewrite getAllChannels_some; destruct (existsb _ _); [discriminate|].
  intro H; injection H as <-.
  eapply Sorted_impl_rel; [|apply (sort_by_sorted _ by_channel_views_desc_asym)].
  intros a b Hab; unfold by_channel_views_desc in Hab; apply Z.ltb_ge in Hab; exact Hab.
Qed.

Lemma channel_keys_perm vd chs :
  getAllChannels vd = Some chs ->
  Permutation (map ch_key chs) (map fst (channel_group (all_videos vd))).
Proof.
  intro H; rewrite <- channel_keys_of_group; apply Permutation_map, channels_perm, H.
Qed.

(** X14: when [getAllChannels] returns, its channels are in
    non-increasing order of total views and there is exactly one channel
    per distinct channel key of the loaded videos (a missing title having
    the key "undefined"). *)
Theorem getAllChannels_sorted_keys (vd : VideoData) (chs : list Channel) :
  getAllChannels vd = Some chs ->
  Sorted (fun a b => ch_totalViews b <= ch_totalViews a) chs /\
  NoDup (map ch_key chs) /\
  (forall k, In k (map ch_key chs) <-> exists v, In v (all_videos vd) /\ channel_key v = k).
Proof.
  intro H; split; [exact (channels_sorted vd chs H)|].
  pose proof (channel_keys_perm vd chs H) as Hp.
  split.
  - eapply Permutation_NoDup; [symmetry; exact Hp|].
    apply group_fold_nodup; constructor.
  - intro k; split; intro Hk.
    + apply (proj1 (group_fold_keys channel_key new_channel add_to_channel (all_videos vd) k)).
      exact (Permutation_in _ Hp Hk).
    + apply (Permutation_in _ (Permutation_sym Hp)).
      apply (proj2 (group_fold_keys channel_key new_channel add_to_channel (all_videos vd) k)).
      exact Hk.
Qed.

Lemma channel_fields l e :
  fold_left (fun e v => add_to_channel v e) l e =
  {| ch_name := ch_name e; ch_videoCount := ch_videoCount e + Z.of_nat (List.length l);
     ch_totalViews := ch_totalViews e + zsum (map views l);
     ch_countries := fold_left set_add (map country l) (ch_countries e) |}.
Proof.
  unfold zsum; revert e; induction l as [|v l IH]; intro e; cbn [fold_left map fold_right List.length].
  - destruct e; simpl; f_equal; lia.
  - rewrite IH; simpl; f_equal; lia.
Qed.

Lemma channel_spec (vd : VideoData) (chs : list Channel) (ch : Channel) :
  getAllChannels vd = Some chs -> In ch chs ->
  let vs := filter (fun v => String.eqb (channel_key v) (ch_key ch)) (all_videos vd) in
  vs <> [] /\
  ch_videoCount ch = Z.of_nat (List.length vs) /\
  ch_totalViews ch = zsum (map views vs) /\
  NoDup (ch_countries ch) /\
  (forall c, In c (ch_countries ch) <-> In c (map country vs)).
Proof.
  intros H Hin vs.
  apply (Permutation_in _ (channels_perm vd chs H)), in_map_iff in Hin as [[k ch'] [Hch Hkin]].
  simpl in Hch; subst ch'.
  assert (Hk : ch_key ch = k).
  { pose proof (channel_group_names (all_videos vd)) as Hn; rewrite Forall_forall in Hn.
    exact (Hn _ Hkin). }
  assert (Hnd : NoDup (map fst (channel_group (all_videos vd))))
    by (apply group_fold_nodup; constructor).
  assert (Hl := group_fold_lookup channel_key new_channel add_to_channel (all_videos vd) [] k).
  fold (channel_group (all_videos vd)) in Hl.
  rewrite <- assoc_last_first, (assoc_last_nodup _ _ _ Hnd Hkin) in Hl by exact Hnd.
  change (assoc_first [] k) with (@None Channel) in Hl.
  unfold vs; rewrite Hk.
  destruct (filter (fun v => String.eqb (channel_key v) k) (all_videos vd)) as [|v l] eqn:E;
    simpl in Hl; [discriminate|].
  injection Hl as Hl.
  change (fold_left (fun e v => add_to_channel v e) l (add_to_channel v (new_channel v)))
    with (fold_left (fun e v => add_to_channel v e) (v :: l) (new_channel v)) in Hl.
  rewrite channel_fields in Hl; rewrite Hl; simpl.
  destruct (set_of_spec (map country (v :: l))) as [Hs1 Hs2].
  split; [discriminate|split; [reflexivity|split; [unfold zsum; simpl; lia|]]].
  split; [exact Hs1|exact Hs2].
Qed.

(** X15: when [getAllChannels] returns, each channel's [videoCount] and
    [totalViews] are the number and the summed views of the loaded videos
    with its key, at least one, and its [countries] list, without
    repetition, the countries of those videos. *)
Theorem getAllChannels_channel (vd : VideoData) (chs : list Channel) (ch : Channel) :
  getAllChannels vd = Some chs -> In ch chs ->
  let vs := filter (fun v => String.eqb (channel_key v) (ch_key ch)) (all_videos vd) in
  vs <> [] /\
  ch_videoCount ch = Z.of_nat (List.length vs) /\
  ch_totalViews ch = zsum (map views vs) /\
  NoDup (ch_countries ch) /\
  (forall c, In c (ch_countries ch) <-> In c (map country vs)).
Proof. exact (channel_spec vd chs ch). Qed.

Lemma opt_string_eqb_eq a b : opt_string_eqb a b = true <-> a = b.
Proof.
  destruct a as [x|], b as [y|]; simpl; try (split; congruence).
  rewrite String.eqb_eq; split; congruence.
Qed.

Lemma opt_set_acc_spec l acc :
  NoDup acc ->
  NoDup (fold_left opt_set_add l acc) /\
  (forall y, In y (fold_left opt_set_add l acc) <-> In y acc \/ In y l).
Proof.
  revert acc; induction l as [|x l IH]; intros acc Hnd; simpl.
  - split; [exact Hnd|intro y; tauto].
  - assert (Hstep : NoDup (opt_set_add acc x) /\
                    forall y, In y (opt_set_add acc x) <-> In y acc \/ y = x).
    { unfold opt_set_add; destruct (existsb (opt_string_eqb x) acc) eqn:E.
      - apply existsb_exists in E as [z [Hz Hxz]]; apply opt_string_eqb_eq in Hxz; subst z.
        split; [exact Hnd|]; intro y; split; [tauto|intros [H| ->]; auto].
      - split.
        + apply NoDup_app; [exact Hnd|constructor; [intros []|constructor]|].
          intros y Hy [Hxy|[]]; subst x.
          assert (existsb (opt_string_eqb y) acc = true)
            by (apply existsb_exists; exists y; split; [exact Hy|apply opt_string_eqb_eq; reflexivity]).
          congruence.
        + intro y; rewrite in_app_iff; simpl; split; intros [H|H]; intuition. }
    destruct Hstep as [Hnd' Hin'].
    destruct (IH _ Hnd') as [Hnd'' Hin''].
    split; [exact Hnd''|intro y; rewrite Hin'', Hin'; intuition].
Qed.

Lemma NoDup_map_inj_in {A B} (f : A -> B) l :
  (forall x y, In x l -> In y l -> f x = f y -> x = y) -> NoDup l -> NoDup (map f l).
Proof.
  intros Hinj Hnd; induction Hnd as [|x l Hx Hnd IH]; simpl; constructor.
  - intro H; apply in_map_iff in H as [y [Hy Hyl]].
    assert (y = x) by (apply Hinj; simpl; auto); subst y; contradiction.
  - apply IH; intros a b Ha Hb; apply Hinj; simpl; auto.
Qed.

(** X16: when [getAllChannels] returns and no video has the literal
    channel title "undefined", [getTotalChannelCount] is the number of
    channels [getAllChannels] lists. *)
Theorem getTotalChannelCount_channels (vd : VideoData) (chs : list Channel) :
  getAllChannels vd = Some chs ->
  (forall v, In v (all_videos vd) -> get_field v "channel_title" <> Some "undefined") ->
  getTotalChannelCount vd = Z.of_nat (List.length chs).
Proof.
  intros H Hund; unfold getTotalChannelCount; f_equal.
  set (T := map (fun video => get_field video "channel_title") (all_videos vd)).
  destruct (opt_set_acc_spec T [] (NoDup_nil _)) as [Hnd Hin].
  set (O := fold_left opt_set_add T []) in *.
  assert (HO : forall o, In o O -> exists v, In v (all_videos vd) /\ get_field v "channel_title" = o).
  { intros o Ho; apply Hin in Ho as [[]|Ho]; unfold T in Ho.
    apply in_map_iff in Ho as [v [Hv Hvin]]; exists v; auto. }
  assert (Hnd2 : NoDup (map title_key O)).
  { apply NoDup_map_inj_in; [|exact Hnd].
    intros x y Hx Hy Hxy.
    destruct (HO x Hx) as [vx [Hvx Ex]], (HO y Hy) as [vy [Hvy Ey]].
    pose proof (Hund vx Hvx) as Ux; pose proof (Hund vy Hvy) as Uy.
    destruct x as [a|], y as [b|]; simpl in Hxy; subst; congruence. }
  assert (Hp : Permutation (map title_key O) (map fst (channel_group (all_videos vd)))).
  { apply NoDup_Permutation; [exact Hnd2|apply group_fold_nodup; constructor|].
    intro k; split; intro Hk.
    - apply (proj2 (group_fold_keys channel_key new_channel add_to_channel (all_videos vd) k)).
      apply in_map_iff in Hk as [o [<- Ho]].
      destruct (HO o Ho) as [v [Hv Ev]]; exists v; split; [exact Hv|].
      unfold channel_key; rewrite Ev; reflexivity.
    - apply (proj1 (group_fold_keys channel_key new_channel add_to_channel (all_videos vd) k)) in Hk
        as [v [Hv Hk]].
      apply in_map_iff; exists (get_field v "channel_title"); split.
      + rewrite <- Hk; reflexivity.
      + apply Hin; right; exact (in_map (fun video => get_field video "channel_title") _ v Hv). }
  rewrite <- (length_map title_key O), (Permutation_length Hp).
  rewrite <- (Permutation_length (channel_keys_perm vd chs H)), length_map; reflexivity.
Qed.

Lemma channels_example_all : getAllChannels channels_example = Some channels_example_out.
Proof. vm_compute; reflexivity. Qed.

Lemma getAllChannels_totals_witness :
  getAllChannels channels_example = Some channels_example_out /\
  zsum (map ch_videoCount channels_example_out) =
    Z.of_nat (List.length (all_videos channels_example)) /\
  zsum (map ch_totalViews channels_example_out) = zsum (map views (all_videos channels_example)).
Proof.
  split; [exact channels_example_all|].
  apply getAllChannels_totals, channels_example_all.
Defined.

Lemma getAllChannels_sorted_keys_witness :
  getAllChannels channels_example = Some channels_example_out /\
  Sorted (fun a b => ch_totalViews b <= ch_totalViews a) channels_example_out /\
  NoDup (map ch_key channels_example_out) /\
  (forall k, In k (map ch_key channels_example_out) <->
             exists v, In v (all_videos channels_example) /\ channel_key v = k).
Proof.
  split; [exact channels_example_all|].
  apply getAllChannels_sorted_keys, channels_example_all.
Defined.

Lemma getAllChannels_channel_witness :
  getAllChannels channels_example = Some channels_example_out /\
  In (hd (new_channel (make_row [] "" [] [])) channels_example_out) channels_example_out /\
  let ch := hd (new_channel (make_row [] "" [] [])) channels_example_out in
  let vs := filter (fun v => String.eqb (channel_key v) (ch_key ch)) (all_videos channels_example) in
  vs <> [] /\
  ch_videoCount ch = Z.of_nat (List.length vs) /\
  ch_totalViews ch = zsum (map views vs) /\
  NoDup (ch_countries ch) /\
  (forall c, In c (ch_countries ch) <-> In c (map country vs)).
Proof.
  assert (Hin : In (hd (new_channel (make_row [] "" [] [])) channels_example_out)
                   channels_example_out) by (left; reflexivity).
  split; [exact channels_example_all|split; [exact Hin|]].
  apply (getAllChannels_channel channels_example channels_example_out); 
    [exact channels_example_all|exact Hin].
Defined.

Lemma getTotalChannelCount_channels_witness :
  getAllChannels channels_example = Some channels_example_out /\
  (forall v, In v (all_videos channels_example) -> get_field v "channel_title" <> Some "undefined") /\
  getTotalChannelCount channels_example = Z.of_nat (List.length channels_example_out).
Proof.
  assert (Hu : forall v, In v (all_videos channels_example) ->
                         get_field v "channel_title" <> Some "undefined").
  { intros v Hv; vm_compute in Hv.
    repeat (destruct Hv as [<-|Hv]; [vm_compute; discriminate|]); destruct Hv. }
  split; [exact channels_example_all|split; [exact Hu|]].
  apply getTotalChannelCount_channels; [exact channels_example_all|exact Hu].
Defined.

Lemma StronglySorted_filter_of {A} (R : A -> A -> Prop) (p : A -> bool) l :
  StronglySorted R l -> StronglySorted R (filter p l).
Proof.
  induction 1 as [|x l Hs IH Hall]; simpl; [constructor|].
  destruct (p x); [|exact IH].
  constructor; [exact IH|].
  rewrite Forall_forall in *; intros y Hy; apply filter_In in Hy as [Hy _]; auto.
Qed.

(** X17: for a non-negative [limit], the channel leaderboard lists at
    most [limit] channels in non-increasing order of total views, and
    for a selected country only channels with at least one loaded video
    in that country. *)
Theorem getChannelLeaderboard_spec (vd : VideoData) (limit : Z) (c : string) (out : list Channel) :
  getChannelLeaderboard vd limit c = Some out -> 0 <= limit ->
  (List.length out <= Z.to_nat limit)%nat /\
  Sorted (fun a b => ch_totalViews b <= ch_totalViews a) out /\
  (c <> "all" -> forall ch, In ch out ->
     exists v, In v (all_videos vd) /\ channel_key v = ch_key ch /\ country v = c).
Proof.
  unfold getChannelLeaderboard; intros H Hl.
  destruct (getAllChannels vd) as [chs|] eqn:Ea; [|discriminate].
  injection H as <-; rewrite js_slice_to_nonneg by exact Hl.
  assert (Hss : StronglySorted (fun a b => ch_totalViews b <= ch_totalViews a) chs)
    by (apply Sorted_StronglySorted; [intros x y z; lia|exact (channels_sorted vd chs Ea)]).
  split; [rewrite length_firstn; lia|split].
  - apply Sorted_firstn; destruct (String.eqb c "all").
    + apply StronglySorted_Sorted, Hss.
    + apply StronglySorted_Sorted, StronglySorted_filter_of, Hss.
  - intros Hc ch Hch; apply String.eqb_neq in Hc; rewrite Hc in Hch.
    apply in_firstn_in, filter_In in Hch as [Hch Hinc].
    destruct (channel_spec vd chs ch Ea Hch) as [_ [_ [_ [_ Hcs]]]].
    unfold includes_country in Hinc; apply existsb_exists in Hinc as [c' [Hc' E]].
    apply String.eqb_eq in E; subst c'.
    apply Hcs, in_map_iff in Hc' as [v [Hv Hvin]].
    apply filter_In in Hvin as [Hvin Hk].
    exists v; split; [exact Hvin|split; [apply String.eqb_eq, Hk|exact Hv]].
Qed.

Lemma getChannelLeaderboard_spec_witness :
  getChannelLeaderboard channels_example 1 "GB" = Some [hd (new_channel (make_row [] "" [] [])) channels_example_out] /\
  0 <= 1 /\
  (List.length [hd (new_channel (make_row [] "" [] [])) channels_example_out] <= Z.to_nat 1)%nat /\
  Sorted (fun a b => ch_totalViews b <= ch_totalViews a) [hd (new_channel (make_row [] "" [] [])) channels_example_out] /\
  ("GB" <> "all" -> forall ch, In ch [hd (new_channel (make_row [] "" [] [])) channels_example_out] ->
     exists v, In v (all_videos channels_example) /\ channel_key v = ch_key ch /\ country v = "GB").
Proof.
  assert (H : getChannelLeaderboard channels_example 1 "GB" =
              Some [hd (new_channel (make_row [] "" [] [])) channels_example_out])
    by (vm_compute; reflexivity).
  split; [exact H|split; [lia|]].
  apply (getChannelLeaderboard_spec channels_example 1 "GB"); [exact H|lia].
Defined.


(* ------------------------------------------------------------------ *)
(** ** Categories, performance, countries and statistics *)

Lemma string_before_total a b :
  string_before b a = false -> a <> b -> string_before a b = true.
Proof.
  unfold string_before; rewrite (String.compare_antisym a b).
  destruct (String.compare b a) eqn:E; simpl; intros H1 Hne;
    [apply String.compare_eq_iff in E; congruence|discriminate|reflexivity].
Qed.

Lemma Sorted_nodup_strict {A} (R : A -> A -> Prop) l :
  Sorted R l -> NoDup l -> Sorted (fun a b => R a b /\ a <> b) l.
Proof.
  induction 1 as [|x l Hs IH Hhd]; intro Hnd; constructor.
  - apply IH; inversion Hnd; assumption.
  - inversion Hnd as [|? ? Hx _]; subst.
    destruct Hhd as [|y l' Hxy]; constructor; split; [exact Hxy|].
    intros ->; apply Hx; left; reflexivity.
Qed.

Lemma sorted_strings_strict l :
  Sorted (fun a b => string_before b a = false) l -> NoDup l ->
  Sorted (fun a b => string_before a b = true) l.
Proof.
  intros Hs Hnd; eapply Sorted_impl_rel; [|exact (Sorted_nodup_strict _ _ Hs Hnd)].
  intros a b [H1 H2]; apply string_before_total; assumption.
Qed.

Lemma available_categories_spec (vd : VideoData) :
  Sorted (fun a b => string_before a b = true) (getAvailableCategories vd) /\
  (forall k, In k (getAvailableCategories vd) <->
             exists v, In v (all_videos vd) /\ category_name v = k /\ k <> "").
Proof.
  destruct (heat_categories_spec vd) as [Hnd Hin].
  split.
  - apply sorted_strings_strict; [|exact Hnd].
    apply (sort_by_sorted _ string_before_asym).
  - intro k; change (getAvailableCategories vd) with (heat_categories vd); rewrite Hin.
    split.
    + intros [r [Hr [Hc <-]]]; exists r; split; [exact Hr|split; [reflexivity|]].
      unfold has_category in Hc; apply negb_true_iff, String.eqb_neq in Hc; exact Hc.
    + intros [r [Hr [<- Hk]]]; exists r; split; [exact Hr|split; [|reflexivity]].
      unfold has_category; apply negb_true_iff, String.eqb_neq, Hk.
Qed.

(** X18: [getAvailableCategories] lists, in strictly increasing code-unit
    order, exactly the non-empty category names of the loaded videos. *)
Theorem getAvailableCategories_spec (vd : VideoData) :
  Sorted (fun a b => string_before a b = true) (getAvailableCategories vd) /\
  (forall k, In k (getAvailableCategories vd) <->
             exists v, In v (all_videos vd) /\ category_name v = k /\ k <> "").
Proof. exact (available_categories_spec vd). Qed.

Lemma in_non_null {A} (l : list (option A)) x : In x (non_null l) <-> In (Some x) l.
Proof.
  unfold non_null; rewrite in_flat_map; split.
  - intros [[y|] [Hy Hx]]; simpl in Hx; [destruct Hx as [<-|[]]; exact Hy|destruct Hx].
  - intro H; exists (Some x); split; [exact H|left; reflexivity].
Qed.

Lemma performance_some k vs p :
  performance k vs = Some p ->
  perf_key p = k /\ vs <> [] /\ perf_videoCount p = Z.of_nat (List.length vs) /\
  perf_totalViews p = zsum (map views vs) /\ perf_totalLikes p = zsum (map likes vs) /\
  perf_totalComments p = zsum (map comment_count vs).
Proof.
  unfold performance; destruct (Z.ltb_spec 0 (Z.of_nat (List.length vs))) as [Hl|]; [|discriminate].
  intro H; injection H as <-; simpl; rewrite !sum_by_zsum.
  split; [reflexivity|split; [|auto]].
  intros ->; simpl in Hl; lia.
Qed.

Lemma performance_none k vs : performance k vs = None <-> vs = [].
Proof.
  unfold performance; destruct vs as [|v vs]; simpl; [split; auto|].
  split; [discriminate|discriminate].
Qed.

Lemma keys_non_null (f : string -> option Performance) (ks : list string) :
  (forall k p, f k = Some p -> perf_key p = k) ->
  map perf_key (non_null (map f ks)) = filter (fun k => match f k with Some _ => true | None => false end) ks.
Proof.
  intro Hf; induction ks as [|k ks IH]; simpl; [reflexivity|].
  destruct (f k) as [p|] eqn:E; simpl; [rewrite (Hf k p E), IH; reflexivity|exact IH].
Qed.

Lemma by_perf_views_desc_asym x y :
  by_perf_views_desc x y = true -> by_perf_views_desc y x = false.
Proof. unfold by_perf_views_desc; intro H; apply Z.ltb_lt in H; apply Z.ltb_ge; lia. Qed.

Lemma perf_sorted l :
  Sorted (fun a b => perf_totalViews b <= perf_totalViews a) (sort_by by_perf_views_desc l).
Proof.
  eapply Sorted_impl_rel; [|apply (sort_by_sorted _ by_perf_views_desc_asym)].
  intros a b H; unfold by_perf_views_desc in H; apply Z.ltb_ge in H; exact H.
Qed.

(** X19: [getCategoryPerformance] has exactly one entry per available
    category (none is dropped as [null]), in non-increasing order of total
    views; an entry's [videoCount], [totalViews], [totalLikes] and
    [totalComments] are the number of the loaded videos of its category,
    at least one, and the sums of their views, likes and comments. *)
Theorem getCategoryPerformance_spec (vd : VideoData) :
  Permutation (map perf_key (getCategoryPerformance vd)) (getAvailableCategories vd) /\
  Sorted (fun a b => perf_totalViews b <= perf_totalViews a) (getCategoryPerformance vd) /\
  (forall p, In p (getCategoryPerformance vd) ->
     let vs := filter (fun v => String.eqb (category_name v) (perf_key p)) (all_videos vd) in
     1 <= perf_videoCount p /\ perf_videoCount p = Z.of_nat (List.length vs) /\
     perf_totalViews p = zsum (map views vs) /\ perf_totalLikes p = zsum (map likes vs) /\
     perf_totalComments p = zsum (map comment_count vs)).
Proof.
  set (f := fun category => performance category
              (filter (fun video => String.eqb (category_name video) category) (all_videos vd))).
  assert (Hf : forall k p, f k = Some p -> perf_key p = k)
    by (intros k p H; exact (proj1 (performance_some _ _ _ H))).
  split; [|split].
  - unfold getCategoryPerformance; fold f.
    rewrite (Permutation_map _ (sort_by_perm _ _)), keys_non_null by exact Hf.
    rewrite filter_keep_all; [reflexivity|].
    intros k Hk; apply (proj2 (available_categories_spec vd)) in Hk as [v [Hv [Hn _]]].
    destruct (f k) eqn:E; [reflexivity|].
    unfold f in E; apply performance_none in E.
    assert (Hf' : In v (filter (fun video => String.eqb (category_name video) k) (all_videos vd)))
      by (apply filter_In; split; [exact Hv|apply String.eqb_eq, Hn]).
    rewrite E in Hf'; destruct Hf'.
  - apply perf_sorted.
  - intros p Hp vs; unfold getCategoryPerformance in Hp; fold f in Hp.
    apply (Permutation_in _ (sort_by_perm _ _)), in_non_null, in_map_iff in Hp as [k [Hk _]].
    destruct (performance_some _ _ _ Hk) as [Hkey [Hne [H1 [H2 [H3 H4]]]]].
    unfold vs; rewrite Hkey.
    assert (Hpos : 1 <= Z.of_nat (List.length
              (filter (fun v => String.eqb (category_name v) k) (all_videos vd)))).
    { destruct (filter (fun v => String.eqb (category_name v) k) (all_videos vd));
        [congruence|cbn [List.length]; lia]. }
    split; [rewrite H1; exact Hpos|auto].
Qed.

Lemma has_rows_performance vd k :
  match performance k (country_videos vd k) with Some _ => true | None => false end =
  has_rows vd k.
Proof.
  unfold has_rows, country_videos.
  destruct (assoc_last vd k) as [[|r rows]|]; reflexivity.
Qed.

(** X20: [getCountryPerformance] has exactly one entry per loaded country
    with at least one row, in non-increasing order of total views; an
    entry's [videoCount] and sums are those of the rows of its country. *)
Theorem getCountryPerformance_spec (vd : VideoData) :
  Permutation (map perf_key (getCountryPerformance vd)) (filter (has_rows vd) (map fst vd)) /\
  Sorted (fun a b => perf_totalViews b <= perf_totalViews a) (getCountryPerformance vd) /\
  (forall p, In p (getCountryPerformance vd) ->
     let vs := country_videos vd (perf_key p) in
     1 <= perf_videoCount p /\ perf_videoCount p = Z.of_nat (List.length vs) /\
     perf_totalViews p = zsum (map views vs) /\ perf_totalLikes p = zsum (map likes vs) /\
     perf_totalComments p = zsum (map comment_count vs)).
Proof.
  set (f := fun c => performance c (country_videos vd c)).
  assert (Hf : forall k p, f k = Some p -> perf_key p = k)
    by (intros k p H; exact (proj1 (performance_some _ _ _ H))).
  split; [|split].
  - unfold getCountryPerformance; fold f.
    rewrite (Permutation_map _ (sort_by_perm _ _)), keys_non_null by exact Hf.
    erewrite filter_ext; [reflexivity|]; intro k; apply has_rows_performance.
  - apply perf_sorted.
  - intros p Hp vs; unfold getCountryPerformance in Hp; fold f in Hp.
    apply (Permutation_in _ (sort_by_perm _ _)), in_non_null, in_map_iff in Hp as [k [Hk _]].
    destruct (performance_some _ _ _ Hk) as [Hkey [Hne [H1 [H2 [H3 H4]]]]].
    unfold vs; rewrite Hkey.
    assert (Hpos : 1 <= Z.of_nat (List.length (country_videos vd k))).
    { destruct (country_videos vd k); [congruence|cbn [List.length]; lia]. }
    split; [rewrite H1; exact Hpos|auto].
Qed.

(** X21: [getAvailableCountriesLegacy] lists, in code-unit order, exactly
    the loaded countries with at least one row; with distinct keys the
    order is strict. *)
Theorem getAvailableCountriesLegacy_spec (vd : VideoData) :
  Sorted (fun a b => string_before b a = false) (getAvailableCountriesLegacy vd) /\
  (forall k, In k (getAvailableCountriesLegacy vd) <->
             exists rows, assoc_last vd k = Some rows /\ rows <> []) /\
  (NoDup (map fst vd) -> Sorted (fun a b => string_before a b = true) (getAvailableCountriesLegacy vd)).
Proof.
  unfold getAvailableCountriesLegacy.
  assert (Hs := sort_by_sorted _ string_before_asym (filter (has_rows vd) (map fst vd))).
  split; [exact Hs|split].
  - intro k; split.
    + intro H; apply (Permutation_in _ (sort_by_perm _ _)), filter_In in H as [_ H].
      unfold has_rows in H; destruct (assoc_last vd k) as [rows|]; [|discriminate].
      exists rows; split; [reflexivity|intros ->; discriminate].
    + intros [rows [E Hne]].
      apply (Permutation_in _ (Permutation_sym (sort_by_perm _ _))), filter_In; split.
      * apply assoc_last_in in E; apply (in_map fst _ (k, rows)), E.
      * unfold has_rows; rewrite E; destruct rows; [congruence|reflexivity].
  - intro Hnd; apply sorted_strings_strict; [exact Hs|].
    eapply Permutation_NoDup; [symmetry; apply sort_by_perm|apply NoDup_filter, Hnd].
Qed.

(** X22: [getStats] is [null] before the data is loaded; once loaded, its
    video count and total views are the sums of the [videoCount] and
    [totalViews] of [getViewsByCountry], its country count the number of
    loaded countries, its averages [NaN] when no video is loaded, and its
    category count the length of [getAvailableCategories] when every video
    has a category name. *)
Theorem getStats_spec (vd : VideoData) :
  getStats false vd = None /\
  exists st, getStats true vd = Some st /\
    st_totalVideos st = zsum (map (fun p => videoCount (snd p)) (getViewsByCountry vd)) /\
    st_totalViews st = zsum (map (fun p => totalViews (snd p)) (getViewsByCountry vd)) /\
    st_countriesCount st = Z.of_nat (List.length (getViewsByCountry vd)) /\
    (all_videos vd = [] -> st_avgViewsPerVideo st = NNaN /\ st_avgLikesPerVideo st = NNaN) /\
    (Forall (fun v => category_name v <> "") (all_videos vd) ->
     st_categoriesCount st = Z.of_nat (List.length (getAvailableCategories vd))).
Proof.
  split; [reflexivity|].
  eexists; split; [reflexivity|]; cbn [st_totalVideos st_totalViews st_countriesCount
    st_avgViewsPerVideo st_avgLikesPerVideo st_categoriesCount].
  assert (Hg : forall (g : CountryViews -> Z) (h : list Row -> Z),
             (forall rows, g (views_of_country rows) = h rows) ->
             map (fun p => g (snd p)) (getViewsByCountry vd) = map (fun p => h (snd p)) vd).
  { intros g h Hgh; unfold getViewsByCountry; rewrite map_map; apply map_ext.
    intros [c rows]; simpl; apply Hgh. }
  split; [|split; [|split; [|split]]].
  - rewrite (Hg videoCount (fun rows => Z.of_nat (List.length rows))) by reflexivity.
    unfold all_videos; clear Hg; induction vd as [|[c rows] vd IH]; [reflexivity|].
    cbn [map List.concat snd]; rewrite length_app, Nat2Z.inj_add, IH; reflexivity.
  - rewrite (Hg totalViews (fun rows => zsum (map views rows))).
    + rewrite sum_by_acc; unfold all_videos; clear Hg.
      induction vd as [|[c rows] vd IH]; [reflexivity|].
      cbn [map List.concat snd]; rewrite map_app, zsum_app; simpl in *; lia.
    + intro rows; unfold views_of_country; simpl; rewrite sum_by_acc; lia.
  - unfold getViewsByCountry; rewrite !length_map; reflexivity.
  - intros ->; split; reflexivity.
  - intro Hn; f_equal.
    change (getAvailableCategories vd) with (heat_categories vd); unfold heat_categories.
    rewrite (Permutation_length (sort_by_perm _ _)).
    rewrite (filter_keep_all has_category).
    + reflexivity.
    + rewrite Forall_forall in Hn; intros v Hv; apply negb_true_iff, String.eqb_neq, Hn, Hv.
Qed.


(* ------------------------------------------------------------------ *)
(** ** [getTimelineData] and [getTimelineDataByCountry] *)

Lemma timeline_fold_none tz rows : fold_left (timeline_step tz) rows None = None.
Proof. induction rows; simpl; auto. Qed.

Lemma timeline_fold tz rows m :
  fold_left (timeline_step tz) rows (Some m) =
  if existsb has_invalid_date rows then None
  else Some (group_fold (timeline_key tz) timeline_init timeline_upd (filter (dated tz) rows) m).
Proof.
  revert m; induction rows as [|v rows IH]; intro m; [reflexivity|].
  cbn [fold_left existsb filter].
  unfold timeline_step at 2; unfold has_invalid_date at 1; unfold dated at 1.
  unfold video_time at 1.
  destruct (trending_date_parsed v) as [[[d|]|]|] eqn:Ev; cbn [getTime orb];
    try (apply IH); try (apply timeline_fold_none).
  assert (Hk : timeline_key tz v = iso_date_key (d * ms_per_day - tz d))
    by (unfold timeline_key, video_time; rewrite Ev; reflexivity).
  assert (Hi : timeline_init v = {| tl_date := JDate d; tl_count := 0; tl_totalViews := 0 |})
    by (unfold timeline_init; rewrite Ev; reflexivity).
  rewrite IH; unfold group_fold; cbn [fold_left]; rewrite Hk, Hi; reflexivity.
Qed.

Lemma getTimelineDataByCountry_rows tz vd c :
  getTimelineDataByCountry tz vd c = timeline_of tz (vvl_videos vd c).
Proof.
  unfold getTimelineDataByCountry, vvl_videos, country_videos.
  destruct (String.eqb c "all"); [reflexivity|].
  destruct (assoc_last vd c); reflexivity.
Qed.

Lemma timeline_of_some tz rows :
  timeline_of tz rows =
  if existsb has_invalid_date rows then None
  else Some (sort_by (by_date_asc tz)
               (map snd (group_fold (timeline_key tz) timeline_init timeline_upd
                           (filter (dated tz) rows) []))).
Proof.
  unfold timeline_of; rewrite timeline_fold; destruct (existsb _ _); reflexivity.
Qed.

(** X23: [getTimelineDataByCountry] (and [getTimelineData] for "all")
    throws exactly when a selected video's trending date parsed to an
    Invalid Date, whose [toISOString] raises a [RangeError]. *)
Theorem getTimelineDataByCountry_throws (tz : Z -> Z) (vd : VideoData) (c : string) :
  getTimelineDataByCountry tz vd c = None <->
  exists v, In v (vvl_videos vd c) /\ trending_date_parsed v = Some (Some JInvalid).
Proof.
  rewrite getTimelineDataByCountry_rows, timeline_of_some.
  assert (Hx : existsb has_invalid_date (vvl_videos vd c) = true <->
               exists v, In v (vvl_videos vd c) /\ trending_date_parsed v = Some (Some JInvalid)).
  { rewrite existsb_exists; unfold has_invalid_date.
    split; intros [v [Hv Hd]]; exists v; split; auto.
    - destruct (trending_date_parsed v) as [[[]|]|]; congruence.
    - rewrite Hd; reflexivity. }
  rewrite <- Hx; destruct (existsb _ _); split; congruence.
Qed.

Lemma timeline_group_inv tz rows m :
  Forall (fun v => dated tz v = true) rows -> Forall (timeline_inv tz) m ->
  Forall (timeline_inv tz) (group_fold (timeline_key tz) timeline_init timeline_upd rows m).
Proof.
  unfold group_fold; revert m; induction rows as [|v rows IH]; intros m Hr Hm; [exact Hm|].
  inversion Hr as [|? ? Hv Hr']; subst; simpl; apply IH; [exact Hr'|].
  clear IH Hr Hr'.
  assert (Hinit : timeline_inv tz (timeline_key tz v, timeline_upd v (timeline_init v))).
  { unfold dated, video_time in Hv; unfold timeline_inv, entry_key, timeline_key, video_time; simpl.
    destruct (trending_date_parsed v) as [[d|]|]; try discriminate.
    destruct (getTime tz d); [split; [reflexivity|discriminate]|discriminate]. }
  induction m as [|[k e] m IHm]; simpl; [constructor; [exact Hinit|constructor]|].
  inversion Hm as [|? ? [Hk Hd] Hm']; subst.
  destruct (String.eqb_spec k (timeline_key tz v)); constructor; auto.
  all: try exact (conj Hk Hd).
Qed.

Lemma timeline_fields l e :
  fold_left (fun e v => timeline_upd v e) l e =
  {| tl_date := tl_date e; tl_count := tl_count e + Z.of_nat (List.length l);
     tl_totalViews := tl_totalViews e + zsum (map views l) |}.
Proof.
  unfold zsum; revert e; induction l as [|v l IH]; intro e; cbn [fold_left map fold_right List.length].
  - destruct e; simpl; f_equal; lia.
  - rewrite IH; simpl; f_equal; lia.
Qed.

Lemma Sorted_with {A} (R : A -> A -> Prop) (P : A -> Prop) l :
  Forall P l -> Sorted R l -> Sorted (fun a b => R a b /\ P a /\ P b) l.
Proof.
  intro HP; induction 1 as [|x l Hs IH Hhd]; constructor.
  - apply IH; inversion HP; assumption.
  - inversion HP as [|? ? Hx Hl]; subst.
    destruct Hhd as [|y l' Hxy]; constructor.
    inversion Hl; subst; auto.
Qed.

Lemma by_date_asc_asym tz x y : by_date_asc tz x y = true -> by_date_asc tz y x = false.
Proof.
  unfold by_date_asc; destruct (getTime tz (tl_date x)), (getTime tz (tl_date y)); try discriminate.
  intro H; apply Z.ltb_lt in H; apply Z.ltb_ge; lia.
Qed.

(** X24: when [getTimelineDataByCountry] returns, its entries are in
    non-decreasing order of date, their UTC date keys are distinct, and
    an entry's [count] and [totalViews] are the number and the summed
    views of the selected videos with a valid trending date of its key,
    at least one, its [date] being the first such video's date. *)
Theorem getTimelineDataByCountry_entries (tz : Z -> Z) (vd : VideoData) (c : string)
    (es : list TimelineEntry) :
  getTimelineDataByCountry tz vd c = Some es ->
  Sorted (fun a b => exists ta tb, getTime tz (tl_date a) = Some ta /\
                                   getTime tz (tl_date b) = Some tb /\ ta <= tb) es /\
  NoDup (map (entry_key tz) es) /\
  (forall e, In e es ->
     let vs := filter (fun v => dated tz v && String.eqb (timeline_key tz v) (entry_key tz e))
                 (vvl_videos vd c) in
     tl_count e = Z.of_nat (List.length vs) /\ tl_totalViews e = zsum (map views vs) /\
     exists v rest, vs = v :: rest /\ trending_date_parsed v = Some (Some (tl_date e))).
Proof.
  rewrite getTimelineDataByCountry_rows, timeline_of_some.
  set (rows := vvl_videos vd c).
  destruct (existsb has_invalid_date rows); [discriminate|].
  intro H; injection H as <-.
  set (G := group_fold (timeline_key tz) timeline_init timeline_upd (filter (dated tz) rows) []).
  assert (Hinv : Forall (timeline_inv tz) G).
  { apply timeline_group_inv; [|constructor].
    apply Forall_forall; intros v Hv; apply filter_In in Hv as [_ Hv]; exact Hv. }
  assert (Hnd : NoDup (map fst G)) by (apply group_fold_nodup; constructor).
  assert (Hkeys : map (entry_key tz) (map snd G) = map fst G).
  { rewrite map_map; apply map_ext_in; intros p Hp.
    rewrite Forall_forall in Hinv; exact (proj1 (Hinv p Hp)). }
  assert (Hperm := sort_by_perm (by_date_asc tz) (map snd G)).
  split; [|split].
  - assert (Hval : Forall (fun e => getTime tz (tl_date e) <> None) (sort_by (by_date_asc tz) (map snd G))).
    { apply Forall_forall; intros e He; apply (Permutation_in _ Hperm), in_map_iff in He
        as [p [<- Hp]].
      rewrite Forall_forall in Hinv; exact (proj2 (Hinv p Hp)). }
    eapply Sorted_impl_rel;
      [|exact (Sorted_with _ _ _ Hval (sort_by_sorted _ (by_date_asc_asym tz) (map snd G)))].
    intros a b [Hab [Ha Hb]]; unfold by_date_asc in Hab.
    destruct (getTime tz (tl_date a)) as [ta|]; [|congruence].
    destruct (getTime tz (tl_date b)) as [tb|]; [|congruence].
    exists ta, tb; split; [reflexivity|split; [reflexivity|]]; apply Z.ltb_ge in Hab; exact Hab.
  - eapply Permutation_NoDup; [apply Permutation_map; symmetry; exact Hperm|].
    rewrite Hkeys; exact Hnd.
  - intros e He vs.
    apply (Permutation_in _ Hperm), in_map_iff in He as [[k e'] [He Hkin]]; simpl in He; subst e'.
    assert (Hk : entry_key tz e = k).
    { rewrite Forall_forall in Hinv; exact (proj1 (Hinv _ Hkin)). }
    assert (Hl := group_fold_lookup (timeline_key tz) timeline_init timeline_upd
                    (filter (dated tz) rows) [] k).
    fold G in Hl.
    rewrite <- assoc_last_first, (assoc_last_nodup _ _ _ Hnd Hkin) in Hl by exact Hnd.
    change (assoc_first [] k) with (@None TimelineEntry) in Hl.
    rewrite filter_filter in Hl.
    unfold vs; rewrite Hk.
    destruct (filter (fun x => dated tz x && String.eqb (timeline_key tz x) k) rows)
      as [|v l] eqn:E; simpl in Hl; [discriminate|].
    injection Hl as Hl.
    change (fold_left (fun e v => timeline_upd v e) l (timeline_upd v (timeline_init v)))
      with (fold_left (fun e v => timeline_upd v e) (v :: l) (timeline_init v)) in Hl.
    rewrite timeline_fields in Hl; rewrite Hl; simpl.
    split; [reflexivity|split; [unfold zsum; simpl; lia|]].
    exists v, l; split; [reflexivity|].
    assert (Hv : In v (filter (fun x => dated tz x && String.eqb (timeline_key tz x) k) rows))
      by (rewrite E; left; reflexivity).
    apply filter_In in Hv as [_ Hv]; apply andb_true_iff in Hv as [Hv _].
    unfold dated, video_time in Hv.
    destruct (trending_date_parsed v) as [[d|]|]; [reflexivity|discriminate|discriminate].
Qed.

(** X25: when [getTimelineDataByCountry] returns, the counts of its
    entries add up to the number of selected videos whose trending date is
    a valid date, and their total views to the sum of those videos'
    views. *)
Theorem getTimelineDataByCountry_totals (tz : Z -> Z) (vd : VideoData) (c : string)
    (es : list TimelineEntry) :
  getTimelineDataByCountry tz vd c = Some es ->
  zsum (map tl_count es) = Z.of_nat (List.length (filter (dated tz) (vvl_videos vd c))) /\
  zsum (map tl_totalViews es) = zsum (map views (filter (dated tz) (vvl_videos vd c))).
Proof.
  rewrite getTimelineDataByCountry_rows, timeline_of_some.
  destruct (existsb has_invalid_date (vvl_videos vd c)); [discriminate|].
  intro H; injection H as <-.
  assert (Hperm := sort_by_perm (by_date_asc tz)
    (map snd (group_fold (timeline_key tz) timeline_init timeline_upd
                (filter (dated tz) (vvl_videos vd c)) []))).
  split.
  - rewrite (zsum_perm _ _ (Permutation_map _ Hperm)), map_map.
    rewrite (zsum_group _ _ _ tl_count (fun _ => 1)); [|reflexivity|reflexivity].
    rewrite zsum_ones; unfold zsum; simpl; lia.
  - rewrite (zsum_perm _ _ (Permutation_map _ Hperm)), map_map.
    rewrite (zsum_group _ _ _ tl_totalViews views); [|reflexivity|reflexivity].
    unfold zsum; simpl; lia.
Qed.

Lemma timeline_example_utc :
  getTimelineDataByCountry (fun _ => 0) timeline_example "US" = Some timeline_example_out.
Proof. vm_compute; reflexivity. Qed.

Lemma getTimelineDataByCountry_entries_witness :
  getTimelineDataByCountry (fun _ => 0) timeline_example "US" = Some timeline_example_out /\
  Sorted (fun a b => exists ta tb, getTime (fun _ => 0) (tl_date a) = Some ta /\
                                   getTime (fun _ => 0) (tl_date b) = Some tb /\ ta <= tb)
    timeline_example_out /\
  NoDup (map (entry_key (fun _ => 0)) timeline_example_out) /\
  (forall e, In e timeline_example_out ->
     let vs := filter (fun v => dated (fun _ => 0) v &&
                                String.eqb (timeline_key (fun _ => 0) v) (entry_key (fun _ => 0) e))
                 (vvl_videos timeline_example "US") in
     tl_count e = Z.of_nat (List.length vs) /\ tl_totalViews e = zsum (map views vs) /\
     exists v rest, vs = v :: rest /\ trending_date_parsed v = Some (Some (tl_date e))).
Proof.
  split; [exact timeline_example_utc|].
  apply getTimelineDataByCountry_entries, timeline_example_utc.
Defined.

Lemma getTimelineDataByCountry_totals_witness :
  getTimelineDataByCountry (fun _ => 0) timeline_example "US" = Some timeline_example_out /\
  zsum (map tl_count timeline_example_out) =
    Z.of_nat (List.length (filter (dated (fun _ => 0)) (vvl_videos timeline_example "US"))) /\
  zsum (map tl_totalViews timeline_example_out) =
    zsum (map views (filter (dated (fun _ => 0)) (vvl_videos timeline_example "US"))).
Proof.
  split; [exact timeline_example_utc|].
  apply getTimelineDataByCountry_totals, timeline_example_utc.
Defined.


(* ------------------------------------------------------------------ *)
(** ** [getTopChannels] and [getChannelsByCountry] *)

Lemma channel_has_country vd chs ch c :
  getAllChannels vd = Some chs -> In ch chs ->
  includes_country c ch = true <->
  exists v, In v (all_videos vd) /\ channel_key v = ch_key ch /\ country v = c.
Proof.
  intros Ea Hch.
  destruct (channel_spec vd chs ch Ea Hch) as [_ [_ [_ [_ Hcs]]]].
  unfold includes_country; rewrite existsb_exists; split.
  - intros [c' [Hc' E]]; apply String.eqb_eq in E; subst c'.
    apply Hcs, in_map_iff in Hc' as [v [Hv Hvin]].
    apply filter_In in Hvin as [Hvin Hk].
    exists v; split; [exact Hvin|split; [apply String.eqb_eq, Hk|exact Hv]].
  - intros [v [Hv [Hk Hc]]]; exists c; split; [|apply String.eqb_refl].
    apply Hcs, in_map_iff; exists v; split; [exact Hc|].
    apply filter_In; split; [exact Hv|apply String.eqb_eq, Hk].
Qed.

(** X26: for a non-negative [limit], [getTopChannels] is the first
    [min(limit, n)] of the [n] channels of [getAllChannels], and every
    channel it leaves out has no more total views than any channel it
    shows. *)
Theorem getTopChannels_top (vd : VideoData) (limit : Z) (out : list Channel) :
  getTopChannels vd limit = Some out -> 0 <= limit ->
  exists rest,
    getAllChannels vd = Some (app out rest) /\
    List.length out = Nat.min (Z.to_nat limit) (List.length (app out rest)) /\
    (forall x y, In x out -> In y rest -> ch_totalViews y <= ch_totalViews x).
Proof.
  unfold getTopChannels; intros H Hl.
  destruct (getAllChannels vd) as [chs|] eqn:Ea; [|discriminate].
  injection H as <-; rewrite js_slice_to_nonneg by exact Hl.
  exists (skipn (Z.to_nat limit) chs); rewrite firstn_skipn.
  split; [reflexivity|split; [apply length_firstn|]].
  intros x y Hx Hy.
  assert (Hss : StronglySorted (fun a b => ch_totalViews b <= ch_totalViews a) chs)
    by (apply Sorted_StronglySorted; [intros a b d; lia|exact (channels_sorted vd chs Ea)]).
  rewrite <- (firstn_skipn (Z.to_nat limit) chs) in Hss.
  exact (StronglySorted_app_rel _ _ _ x y Hss Hx Hy).
Qed.

(** X27: for a non-negative [limit], every channel returned by
    [getChannelsByCountry] for a country has a loaded video in that
    country, the list is in non-increasing order of total views, and when
    fewer than [limit] channels are returned, every channel of
    [getAllChannels] with a video in that country is among them. *)
Theorem getChannelsByCountry_spec (vd : VideoData) (c : string) (limit : Z)
    (out : list Channel) :
  getChannelsByCountry vd c limit = Some out -> 0 <= limit ->
  (forall ch, In ch out ->
     exists v, In v (all_videos vd) /\ channel_key v = ch_key ch /\ country v = c) /\
  Sorted (fun a b => ch_totalViews b <= ch_totalViews a) out /\
  ((List.length out < Z.to_nat limit)%nat ->
   forall chs ch, getAllChannels vd = Some chs -> In ch chs ->
     (exists v, In v (all_videos vd) /\ channel_key v = ch_key ch /\ country v = c) ->
     In ch out).
Proof.
  unfold getChannelsByCountry; intros H Hl.
  destruct (getAllChannels vd) as [chs|] eqn:Ea; [|discriminate].
  injection H as <-; rewrite js_slice_to_nonneg by exact Hl.
  split; [|split].
  - intros ch Hch; apply in_firstn_in, filter_In in Hch as [Hch Hinc].
    exact (proj1 (channel_has_country vd chs ch c Ea Hch) Hinc).
  - apply Sorted_firstn, StronglySorted_Sorted, StronglySorted_filter_of.
    apply Sorted_StronglySorted; [intros a b d; lia|exact (channels_sorted vd chs Ea)].
  - intros Hlen chs' ch E Hch Hv; injection E as <-.
    rewrite length_firstn in Hlen.
    rewrite firstn_all2 by lia.
    apply filter_In; split; [exact Hch|].
    exact (proj2 (channel_has_country vd chs ch c Ea Hch) Hv).
Qed.

Lemma getTopChannels_top_witness :
  getTopChannels channels_example 1 = Some (firstn 1 channels_example_out) /\ 0 <= 1 /\
  exists rest,
    getAllChannels channels_example = Some (app (firstn 1 channels_example_out) rest) /\
    List.length (firstn 1 channels_example_out) =
      Nat.min (Z.to_nat 1) (List.length (app (firstn 1 channels_example_out) rest)) /\
    (forall x y, In x (firstn 1 channels_example_out) -> In y rest ->
       ch_totalViews y <= ch_totalViews x).
Proof.
  assert (H : getTopChannels channels_example 1 = Some (firstn 1 channels_example_out))
    by (vm_compute; reflexivity).
  split; [exact H|split; [lia|]].
  apply (getTopChannels_top channels_example 1); [exact H|lia].
Defined.

Lemma getChannelsByCountry_spec_witness :
  getChannelsByCountry channels_example "US" 5 = Some channels_example_out /\ 0 <= 5 /\
  (forall ch, In ch channels_example_out ->
     exists v, In v (all_videos channels_example) /\ channel_key v = ch_key ch /\ country v = "US") /\
  Sorted (fun a b => ch_totalViews b <= ch_totalViews a) channels_example_out /\
  ((List.length channels_example_out < Z.to_nat 5)%nat ->
   forall chs ch, getAllChannels channels_example = Some chs -> In ch chs ->
     (exists v, In v (all_videos channels_example) /\ channel_key v = ch_key ch /\ country v = "US") ->
     In ch channels_example_out).
Proof.
  assert (H : getChannelsByCountry channels_example "US" 5 = Some channels_example_out)
    by (vm_compute; reflexivity).
  split; [exact H|split; [lia|]].
  apply (getChannelsByCountry_spec channels_example "US" 5); [exact H|lia].
Defined.
